(** * docurag: the documentation crawler, embedded and verified

    A shallow embedding of the Python package under [src/python]:

    - [text_extractor.py]: [TextExtractor.split_text_on_words],
      [TextExtractor.extract_text_content], [TextExtractor.extract_code_blocks];
    - [models.py]: [CrawlerConfig], [CrawledDocument], [to_dict];
    - [docu_crawler.py]: [DocumentationCrawler.is_valid_url], [crawl_page],
      [crawl];
    - [crawl.py]: [main];
    - [web_crawler.py]: the older single-file crawler, where it differs.

    Python [str] is [string]; Python [int] is [Z]; the delay, a [float], is
    a [spec_float]; the [visited] set is a [gset string]; the parse tree is an
    inductive type with a constructor for text and one for elements. *)

From Stdlib Require Import ZArith Lia Ascii String.
From Stdlib Require SpecFloat.
From stdpp Require Import gmap strings list.

Local Open Scope Z_scope.

(** ** Python's built-in [str] operations used by the package *)

Module Py.

(** The line feed, which has no literal in a Rocq string. *)
Definition LF : ascii := "010"%char.
Definition nl : string := String LF "".

(** [str.isspace] on the code points below 256: TAB, LF, VT, FF, CR, the
    four separators FS GS RS US, SPACE, NEL and NBSP. *)
Definition isspace (c : ascii) : bool :=
  let n := nat_of_ascii c in
  ((9 <=? n) && (n <=? 13) || (28 <=? n) && (n <=? 32)
   || (n =? 133) || (n =? 160))%nat.

Definition len (s : string) : Z := Z.of_nat (String.length s).

(** Truth value of a string: [if s:]. *)
Definition truthy (s : string) : bool :=
  match s with "" => false | String _ _ => true end.

Fixpoint lstrip (s : string) : string :=
  match s with
  | "" => ""
  | String c s' => if isspace c then lstrip s' else s
  end.

Fixpoint rstrip (s : string) : string :=
  match s with
  | "" => ""
  | String c s' =>
      let r := rstrip s' in
      if isspace c && negb (truthy r) then "" else String c r
  end.

Definition strip (s : string) : string := rstrip (lstrip s).

(** [s.split()]: the maximal runs of non-whitespace characters. [cur] is the
    run being read. *)
Definition flush (cur : string) : list string :=
  if truthy cur then [cur] else [].

Fixpoint split_go (cur : string) (s : string) : list string :=
  match s with
  | "" => flush cur
  | String c s' =>
      if isspace c then flush cur ++ split_go "" s'
      else split_go (cur +:+ String c "") s'
  end.

Definition split (s : string) : list string := split_go "" s.

(** [sep.join(l)]. *)
Definition join (sep : string) (l : list string) : string :=
  String.concat sep l.

Definition startswith (s p : string) : bool := String.prefix p s.

Definition endswith (s p : string) : bool :=
  String.prefix (String.rev p) (String.rev s).

(** [s[:n]]. *)
Definition slice_to (n : nat) (s : string) : string := String.substring 0 n s.

Definition lower_char (c : ascii) : ascii :=
  let n := nat_of_ascii c in
  if ((65 <=? n) && (n <=? 90))%nat then ascii_of_nat (n + 32) else c.

Fixpoint lower (s : string) : string :=
  match s with
  | "" => ""
  | String c s' => String (lower_char c) (lower s')
  end.

(** [c in s]. *)
Fixpoint contains (c : ascii) (s : string) : bool :=
  match s with
  | "" => false
  | String d s' => if Ascii.eqb c d then true else contains c s'
  end.

(** [s.split(c)[0]]: everything before the first [c]. *)
Fixpoint before (c : ascii) (s : string) : string :=
  match s with
  | "" => ""
  | String d s' => if Ascii.eqb c d then "" else String d (before c s')
  end.

(** [s.splitlines()] on the code points below 256: a line ends at LF, VT,
    FF, CR, CR LF, FS, GS, RS or NEL; a last line with no end is kept when
    it is not empty. *)
Definition is_linebreak (c : ascii) : bool :=
  let n := nat_of_ascii c in
  ((10 <=? n) && (n <=? 13) || (28 <=? n) && (n <=? 30) || (n =? 133))%nat.

Fixpoint splitlines_go (cur : string) (s : string) : list string :=
  match s with
  | "" => flush cur
  | String c s' =>
      if Ascii.eqb c "013" then
        match s' with
        | String d s'' =>
            if Ascii.eqb d LF then cur :: splitlines_go "" s''
            else cur :: splitlines_go "" s'
        | "" => [cur]
        end
      else if is_linebreak c then cur :: splitlines_go "" s'
      else splitlines_go (cur +:+ String c "") s'
  end.

Definition splitlines (s : string) : list string := splitlines_go "" s.

End Py.

(** ** The parse tree ([bs4]) as the package uses it *)

Module Soup.

(** A node is a string of text or an element with a name, an attribute
    dictionary and its contents. A [BeautifulSoup] object, like the contents
    of an element, is a list of nodes. *)
#[warnings="-register-all"]
Inductive node : Type :=
| Text (s : string)
| Tag (name : string) (attrs : gmap string string) (contents : list node).

Definition soup : Type := list node.

(** An element as a search reports it: with the names of its ancestors
    (nearest first) and the siblings that follow it. *)
Record found : Type := Found {
  ancestors : list string;
  name : string;
  attrs : gmap string string;
  contents : list node;
  next_siblings : list node
}.

(** Every element below the root, in document order. [walk_node] lists an
    element and then what is below it; [walk] does so for each node of a
    list, which are one another's siblings. *)
Fixpoint walk_node (anc : list string) (n : node) (rest : list node)
    : list found :=
  match n with
  | Text _ => []
  | Tag nm at_ cs =>
      Found anc nm at_ cs rest ::
      (fix walk_list (l : list node) : list found :=
         match l with
         | [] => []
         | c :: l' => walk_node (nm :: anc) c l' ++ walk_list l'
         end) cs
  end.

Definition walk (anc : list string) : list node → list found :=
  fix walk_list (l : list node) : list found :=
    match l with
    | [] => []
    | c :: l' => walk_node anc c l' ++ walk_list l'
    end.

Definition named (names : list string) (e : found) : bool :=
  bool_decide (name e ∈ names).

(** [root.find_all(names)] and [root.find(name)]. *)
Definition find_all (names : list string) (root : soup) : list found :=
  filter (λ e, named names e) (walk [] root).

Definition find (nm : string) (root : soup) : option found :=
  head (find_all [nm] root).

(** [e.find_parent(nm)] is not [None]. *)
Definition has_parent (nm : string) (e : found) : bool :=
  bool_decide (nm ∈ ancestors e).

(** Every string below the root, in document order. *)
Fixpoint strings_node (n : node) : list string :=
  match n with
  | Text s => [s]
  | Tag _ _ cs => flat_map strings_node cs
  end.

Definition strings (l : list node) : list string :=
  flat_map strings_node l.

(** [get_text()], and [get_text(separator=sep, strip=True)], which strips
    every string and leaves out the empty ones. *)
Definition get_text (l : list node) : string := Py.join "" (strings l).

Definition stripped_strings (l : list node) : list string :=
  filter (λ s, Py.truthy s) (Py.strip <$> strings l).

Definition get_text_strip (sep : string) (l : list node) : string :=
  Py.join sep (stripped_strings l).

(** [for e in root(names): e.decompose()]: every element with one of the
    names leaves the tree, with all below it. *)
Fixpoint decompose_node (names : list string) (n : node) : list node :=
  match n with
  | Text s => [Text s]
  | Tag nm at_ cs =>
      if bool_decide (nm ∈ names) then []
      else [Tag nm at_ (flat_map (decompose_node names) cs)]
  end.

Definition decompose_all (names : list string) (l : list node) : list node :=
  flat_map (decompose_node names) l.

(** Induction over a tree: the children of an element satisfy the
    property. *)
Section node_induction.
Variable P : node → Prop.
Hypothesis text_case : ∀ s, P (Text s).
Hypothesis tag_case : ∀ nm at_ cs, Forall P cs → P (Tag nm at_ cs).

Fixpoint node_forest_ind (n : node) : P n :=
  match n with
  | Text s => text_case s
  | Tag nm at_ cs =>
      tag_case nm at_ cs
        ((fix children (l : list node) : Forall P l :=
            match l with
            | [] => @List.Forall_nil node P
            | c :: l' =>
                @List.Forall_cons node P c l'
                  (node_forest_ind c) (children l')
            end) cs)
  end.
End node_induction.

End Soup.

(** ** [text_extractor.py] *)

Module TextExtractor.

(** One iteration of [for word in words:]; the state is
    [(chunks, current_chunk)]. *)
Definition pack_step (max_length : Z) (st : list string * string)
    (word : string) : list string * string :=
  let '(chunks, current_chunk) := st in
  if Py.len current_chunk + Py.len word + 1 >? max_length then
    if Py.truthy current_chunk
    then (chunks ++ [Py.strip current_chunk], word)
    else (chunks ++ [word], current_chunk)
  else
    if Py.truthy current_chunk
    then (chunks, current_chunk +:+ " " +:+ word)
    else (chunks, word).

(** The loop, the last flush and the join. *)
Definition pack (max_length : Z) (words : list string) : string :=
  let '(chunks, current_chunk) :=
    fold_left (pack_step max_length) words ([], "") in
  let chunks :=
    if Py.truthy current_chunk
    then chunks ++ [Py.strip current_chunk] else chunks in
  Py.join (Py.nl +:+ Py.nl) chunks.

Definition split_text_on_words (text : string) (max_length : Z) : string :=
  if Py.len text <=? max_length then text
  else pack max_length (Py.split text).

(** *** [extract_text_content] *)

Definition NOISE : list string :=
  ["script"; "style"; "nav"; "footer"; "header"].
Definition HEADINGS : list string := ["h1"; "h2"; "h3"; "h4"; "h5"; "h6"].
Definition SECTION_STOPS : list string := ["h1"; "h2"; "h3"; "h4"].

(** [soup.find('div', class_='content')]: the first [div] one of whose
    classes is [content]. *)
Definition has_class (cls : string) (e : Soup.found) : bool :=
  match Soup.attrs e !! "class" with
  | Some v => bool_decide (cls ∈ Py.split v)
  | None => false
  end.

Definition find_div_class (cls : string) (root : Soup.soup)
    : option Soup.found :=
  head (filter (λ e, has_class cls e) (Soup.find_all ["div"] root)).

(** [soup.find('main') or soup.find('article') or soup.find('div', ...)],
    and the soup itself when all three are [None]. The result is the
    contents of the region. *)
Definition main_content (root : Soup.soup) : list Soup.node :=
  match Soup.find "main" root with
  | Some e => Soup.contents e
  | None =>
      match Soup.find "article" root with
      | Some e => Soup.contents e
      | None =>
          match find_div_class "content" root with
          | Some e => Soup.contents e
          | None => root
          end
      end
  end.

(** The text of one sibling: [get_text(strip=True)] of an element, the
    stripped string of a text node. *)
Definition sibling_text (sib : Soup.node) : string :=
  match sib with
  | Soup.Text s => Py.strip s
  | Soup.Tag _ _ cs => Soup.get_text_strip "" cs
  end.

(** [sibling.name and sibling.name in stops]; a text node has no name. *)
Definition stops_section (stops : list string) (sib : Soup.node) : bool :=
  match sib with
  | Soup.Text _ => false
  | Soup.Tag nm _ _ => Py.truthy nm && bool_decide (nm ∈ stops)
  end.

(** [for sibling in heading.next_siblings:] with its [break]. *)
Fixpoint scan_siblings (stops : list string) (sibs : list Soup.node)
    (content_elements : list string) : list string :=
  match sibs with
  | [] => content_elements
  | sibling :: rest =>
      if stops_section stops sibling then content_elements
      else
        let text := sibling_text sibling in
        if Py.truthy text
        then scan_siblings stops rest (content_elements ++ [text])
        else scan_siblings stops rest content_elements
  end.

(** The body of [for heading in headings:]. *)
Definition add_section (stops : list string) (sections : list string)
    (heading : Soup.found) : list string :=
  let heading_text := Soup.get_text_strip "" (Soup.contents heading) in
  let content_elements :=
    scan_siblings stops (Soup.next_siblings heading) [] in
  let content_text := Py.join Py.nl content_elements in
  if Py.truthy heading_text || Py.truthy content_text then
    let section := Py.nl +:+ Py.nl +:+ heading_text in
    let section :=
      if Py.truthy content_text then section +:+ Py.nl +:+ content_text
      else section in
    sections ++ [section]
  else sections.

(** The content of a region already found, before chunking. *)
Definition structured_content (stops : list string)
    (region : list Soup.node) : string :=
  let headings := Soup.find_all HEADINGS region in
  match headings with
  | [] =>
      let text := Soup.get_text_strip Py.nl region in
      let lines :=
        Py.strip <$>
          filter (λ line, Py.truthy (Py.strip line)) (Py.splitlines text) in
      Py.nl +:+ Py.nl +:+ Py.join Py.nl lines
  | _ :: _ =>
      let sections := fold_left (add_section stops) headings [] in
      match sections with
      | [] => Py.nl +:+ Py.nl
      | _ :: _ => Py.join "" sections
      end
  end.

(** [extract_text_content] changes the soup it is given: the noise elements
    are gone afterwards. It returns the content; [cleaned] is the soup the
    caller is left with. *)
Definition cleaned (root : Soup.soup) : Soup.soup :=
  Soup.decompose_all NOISE root.

Definition extract_text_content (root : Soup.soup) (max_length : Z)
    : string :=
  split_text_on_words
    (structured_content SECTION_STOPS (main_content (cleaned root)))
    max_length.

(** *** [extract_code_blocks] *)

Definition add_pre (code_blocks : list string) (pre : Soup.found)
    : list string :=
  let code_text := Py.strip (Soup.get_text (Soup.contents pre)) in
  if Py.truthy code_text then code_blocks ++ [code_text] else code_blocks.

Definition add_code (code_blocks : list string) (code : Soup.found)
    : list string :=
  if Soup.has_parent "pre" code then code_blocks
  else
    let code_text := Py.strip (Soup.get_text (Soup.contents code)) in
    if Py.truthy code_text then code_blocks ++ [code_text] else code_blocks.

Definition extract_code_blocks (root : Soup.soup) : list string :=
  let code_blocks := [] in
  let code_blocks :=
    fold_left add_pre (Soup.find_all ["pre"] root) code_blocks in
  fold_left add_code (Soup.find_all ["code"] root) code_blocks.

End TextExtractor.


(** ** [urllib.parse] as the package uses it *)

Module Urllib.

(** The authority of a URL as [urlparse] reads it, before its checks of
    square brackets ([urlparse] below): leading control characters and
    spaces are dropped, then TAB, CR and LF anywhere; a scheme is a letter
    followed by scheme characters up to the first colon; the authority is
    what follows [//] up to the first of [/?#]. *)
Definition is_alpha (c : ascii) : bool :=
  let n := nat_of_ascii c in
  ((65 <=? n) && (n <=? 90) || (97 <=? n) && (n <=? 122))%nat.

Definition is_digit (c : ascii) : bool :=
  let n := nat_of_ascii c in ((48 <=? n) && (n <=? 57))%nat.

Definition scheme_char (c : ascii) : bool :=
  is_alpha c || is_digit c
  || Ascii.eqb c "+" || Ascii.eqb c "-" || Ascii.eqb c ".".

Fixpoint lstrip_c0 (s : string) : string :=
  match s with
  | "" => ""
  | String c s' => if (nat_of_ascii c <=? 32)%nat then lstrip_c0 s' else s
  end.

Fixpoint remove_unsafe (s : string) : string :=
  match s with
  | "" => ""
  | String c s' =>
      if Ascii.eqb c "009" || Ascii.eqb c "010" || Ascii.eqb c "013"
      then remove_unsafe s' else String c (remove_unsafe s')
  end.

(** What follows the first colon, when only scheme characters precede it. *)
Fixpoint after_scheme (s : string) : option string :=
  match s with
  | "" => None
  | String c s' =>
      if Ascii.eqb c ":" then Some s'
      else if scheme_char c then after_scheme s' else None
  end.

Definition drop_scheme (url : string) : string :=
  match url with
  | "" => url
  | String c _ =>
      if is_alpha c then
        match after_scheme url with Some rest => rest | None => url end
      else url
  end.

Fixpoint authority (s : string) : string :=
  match s with
  | "" => ""
  | String c s' =>
      if Ascii.eqb c "/" || Ascii.eqb c "?" || Ascii.eqb c "#" then ""
      else String c (authority s')
  end.

Definition netloc (url : string) : string :=
  match drop_scheme (remove_unsafe (lstrip_c0 url)) with
  | String "/" (String "/" rest) => authority rest
  | _ => ""
  end.

(** The result of a call that may raise [ValueError]. *)
Inductive result (A : Type) : Type :=
| Ok (a : A)
| ValueError (message : string).

Arguments Ok {A} a.
Arguments ValueError {A} message.

(** [urlparse(url).netloc], with the error. An authority with one square
    bracket and not the other raises. With both, the library checks what is
    between them, and not in the same way in every version: [check] gives
    the message of the error for an authority that check refuses. On the
    code points below 256 the check of the normal form raises nothing. *)
Definition urlparse (check : string → option string) (url : string)
    : result string :=
  let netloc := netloc url in
  let opens := Py.contains "[" netloc in
  let closes := Py.contains "]" netloc in
  if (opens && negb closes) || (closes && negb opens)
  then ValueError "Invalid IPv6 URL"
  else if opens && closes then
    match check netloc with
    | Some message => ValueError message
    | None => Ok netloc
    end
  else Ok netloc.

(** The scheme of a URL that has one, in lower case. *)
Fixpoint before_colon (s : string) : string :=
  match s with
  | "" => ""
  | String c s' => if Ascii.eqb c ":" then "" else String c (before_colon s')
  end.

Definition scheme (url : string) : string :=
  Py.lower (before_colon (remove_unsafe (lstrip_c0 url))).

(** [urljoin(base, ref)] for an [http] or [https] base and a reference that
    starts with a slash and has no dot segments: a reference that starts
    with two slashes keeps only the scheme of the base, any other keeps
    scheme and authority. The crawl below takes [urljoin] as a parameter;
    this function serves the examples. *)
Definition urljoin_rooted (base ref : string) : option string :=
  if Py.startswith ref "//" then Some (scheme base +:+ ":" +:+ ref)
  else Some (scheme base +:+ "://" +:+ netloc base +:+ ref).

End Urllib.

(** ** [models.py] *)

Module Models.

Record CrawlerConfig : Type := {
  base_url : string;
  max_depth : Z;
  max_pages : Z;
  timeout : Z;
  rate_limit_delay : SpecFloat.spec_float;
  user_agent : string
}.

(** The default delay, 0.5. *)
Definition DEFAULT_DELAY : SpecFloat.spec_float :=
  SpecFloat.S754_finite false 1 (-1).

(** [__post_init__]: the message of the [ValueError] it raises, if any. The
    comparison of a float that is not a number is false, so such a delay
    passes. *)
Definition post_init (c : CrawlerConfig) : option string :=
  if max_depth c <? 0 then Some "max_depth must be non-negative"
  else if max_pages c <? 1 then Some "max_pages must be at least 1"
  else if negb (Py.startswith (base_url c) "http://"
                || Py.startswith (base_url c) "https://")
  then Some "base_url must start with http:// or https://"
  else if timeout c <=? 0 then Some "timeout must be positive"
  else if SpecFloat.SFltb (rate_limit_delay c) (SpecFloat.S754_zero false)
  then Some "rate_limit_delay must be non-negative"
  else None.

Record CrawledDocument : Type := {
  url : string;
  title : string;
  content : string;
  code_blocks : list string;
  depth : Z;
  crawled_at : string
}.

(** The values [to_dict] builds and [json.dump] writes. A dictionary keeps
    the order in which its keys were inserted. *)
#[warnings="-register-all"]
Inductive value : Type :=
| VStr (s : string)
| VInt (n : Z)
| VList (l : list value)
| VDict (d : list (string * value)).

(** [d[k]] when [d] is a dictionary that has the key. *)
Fixpoint assoc (k : string) (d : list (string * value)) : option value :=
  match d with
  | [] => None
  | (k', v) :: d' => if String.eqb k k' then Some v else assoc k d'
  end.

Definition get (k : string) (v : value) : option value :=
  match v with VDict d => assoc k d | _ => None end.

Definition to_dict (self : CrawledDocument) : value :=
  VDict [
    ("url", VStr (url self));
    ("title", VStr (title self));
    ("content", VStr (content self));
    ("code_blocks", VList (VStr <$> code_blocks self));
    ("metadata", VDict [
      ("code_blocks", VList (VStr <$> code_blocks self));
      ("depth", VInt (depth self));
      ("crawled_at", VStr (crawled_at self))
    ])
  ].

End Models.

(** ** [docu_crawler.py] *)

Module Crawler.
Import Models.

Definition SKIP_EXTENSIONS : list string :=
  [".pdf"; ".zip"; ".jpg"; ".png"; ".gif"; ".css"; ".js"].

(** What [session.get], [raise_for_status] and the parser give for a URL: an
    exception, of the class [requests.RequestException] or of another
    class, or the parsed page. *)
Inductive error : Type := RequestException | OtherException.

Inductive response : Type :=
| Fails (e : error)
| Page (root : Soup.soup).

(** The two attributes of the crawler that change during a crawl. *)
Record state : Type := State {
  visited : gset string;
  documents : list CrawledDocument
}.

Definition initial : state := State ∅ [].

(** [soup.find_all('a', href=True)] and [link['href']] for each. *)
Definition hrefs (root : Soup.soup) : list string :=
  omap (λ e, Soup.attrs e !! "href") (Soup.find_all ["a"] root).

Section Crawl.

(** The world outside: the pages ([crawl_page] asks for a URL at most
    once, so a function describes every server), [urljoin], which is
    [None] where the library raises, and the clock read when the page of
    a URL is recorded. *)
Variable fetch : string → response.
Variable urljoin : string → string → option string.
Variable strftime : string → string.

(** The check of a bracketed authority that [urlparse] makes. *)
Variable check : string → option string.

Variable config : CrawlerConfig.

(** [__init__]: it ends with the base domain, or with the [ValueError] of
    [urlparse]. *)
Definition init : Urllib.result string :=
  Urllib.urlparse check (base_url config).

(** [self.base_domain] of a crawler that was constructed. *)
Definition base_domain : string := Urllib.netloc (base_url config).

(** [is_valid_url]: its answer, or the [ValueError] of [urlparse]. *)
Definition is_valid_url (url : string) (st : state) : Urllib.result bool :=
  match Urllib.urlparse check url with
  | Urllib.ValueError message => Urllib.ValueError message
  | Urllib.Ok netloc =>
      Urllib.Ok
        (if negb (String.eqb netloc base_domain) then false
         else if existsb (λ ext, Py.endswith (Py.lower url) ext)
                   SKIP_EXTENSIONS
         then false
         else
           let url :=
             if Py.contains "#" url then Py.before "#" url else url in
           negb (bool_decide (url ∈ visited st)))
  end.

Definition title_text (url : string) (root : Soup.soup) : string :=
  match Soup.find "title" root with
  | Some title => Soup.get_text_strip "" (Soup.contents title)
  | None => url
  end.

(** The document of a page. [extract_text_content] has removed the noise
    elements from the soup by the time the code blocks are read. *)
Definition document_of (url : string) (depth : Z) (root : Soup.soup)
    : CrawledDocument :=
  {| url := url;
     title := title_text url root;
     content := TextExtractor.extract_text_content root 5000;
     code_blocks :=
       TextExtractor.extract_code_blocks (TextExtractor.cleaned root);
     depth := depth;
     crawled_at := strftime url |}.

(** [next_url] for a link that is followed; [None] when [urljoin]
    raises. *)
Definition next_url (href : string) : option string :=
  if Py.startswith href "/" then urljoin (base_url config) href
  else Some href.

(** [for link in links:] with its body; [visit next] is the recursive
    call [self.crawl_page(next_url, depth + 1)]. When [urljoin] raises,
    the exception leaves the loop and the [try] block, and the handler
    only logs. *)
Definition follow (visit : string → state → option state)
    (sub_string : string) : list string → state → option state :=
  fix follow (links : list string) (st : state) : option state :=
    match links with
    | [] => Some st
    | href :: links' =>
        if Py.startswith href sub_string || Py.startswith href "/" then
          match next_url href with
          | None => Some st
          | Some next =>
              match visit next st with
              | None => None
              | Some st' => follow links' st'
              end
          end
        else follow links' st
    end.

(** [crawl_page]. A call that gets past its two guards uses one unit of
    [fuel]; the result is [None] when there is none left. An exception
    leaves the [try] block at once and both handlers only log, so the
    state at that moment is the state returned. The sleep that ends the
    block changes nothing of the state, also when it raises. *)
Fixpoint crawl_page (fuel : nat) (url : string) (depth : Z) (st : state)
    : option state :=
  if (depth >? max_depth config)
     || (Z.of_nat (size (visited st)) >=? max_pages config)
  then Some st
  else if bool_decide (url ∈ visited st) then Some st
  else
    match fuel with
    | O => None
    | S fuel' =>
        let st := State ({[url]} ∪ visited st) (documents st) in
        match fetch url with
        | Fails _ => Some st
        | Page root =>
            let document := document_of url depth root in
            let st := State (visited st) (documents st ++ [document]) in
            let sub_string := Py.slice_to 20 url in
            follow (λ next, crawl_page fuel' next (depth + 1)) sub_string
              (hrefs (TextExtractor.cleaned root)) st
        end
    end.

(** [crawl], with fuel for [max_depth + 1] nested calls. *)
Definition crawl_fuel : nat := Z.to_nat (max_depth config + 1).

Definition crawl : option (list CrawledDocument) :=
  documents <$> crawl_page crawl_fuel (base_url config) 0 initial.

(** *** What a crawl keeps true *)

(** A later state has every visited URL and every document of an earlier
    one, the documents in the same places. *)
Definition extends (st st' : state) : Prop :=
  visited st ⊆ visited st' ∧ documents st `prefix_of` documents st'.

(** A document of the store: its URL is visited, its depth is within the
    limit, and it is the document of the page fetched for its URL. *)
Definition recorded (st : state) (d : CrawledDocument) : Prop :=
  url d ∈ visited st
  ∧ 0 ≤ depth d ≤ max_depth config
  ∧ ∃ root, fetch (url d) = Page root
            ∧ d = document_of (url d) (depth d) root.

Definition consistent (st : state) : Prop :=
  Z.of_nat (size (visited st)) ≤ max_pages config
  ∧ (length (documents st) ≤ size (visited st))%nat
  ∧ NoDup (url <$> documents st)
  ∧ Forall (recorded st) (documents st).

End Crawl.

End Crawler.

(** ** [crawl.py] *)

Module Cli.
Import Models.

(** How the process ends: exit code 0 with the printed result, or exit code
    1 with the logged message. *)
Inductive exit : Type :=
| Exit0 (result : value)
| Exit1 (message : string).

Record args : Type := {
  arg_url : string;
  arg_max_depth : Z;
  arg_max_pages : Z;
  arg_timeout : Z;
  arg_rate_limit : SpecFloat.spec_float
}.

Definition DEFAULT_USER_AGENT : string :=
  "Mozilla/5.0 (Windows NT 10.0; Win64; x64) AppleWebKit/537.36".

Definition make_config (a : args) : CrawlerConfig :=
  {| base_url := arg_url a;
     max_depth := arg_max_depth a;
     max_pages := arg_max_pages a;
     timeout := arg_timeout a;
     rate_limit_delay := arg_rate_limit a;
     user_agent := DEFAULT_USER_AGENT |}.

(** [main], the output file set aside: [None] only if the crawl has no
    result. A [ValueError], of [__post_init__] or of the constructor of the
    crawler, is the configuration error; any other exception would be the
    fatal error, and the crawl raises none. *)
Definition main (check : string → option string)
    (fetch : string → Crawler.response)
    (urljoin : string → string → option string)
    (strftime : string → string) (a : args) : option exit :=
  let config := make_config a in
  match post_init config with
  | Some message => Some (Exit1 ("Configuration error: " +:+ message))
  | None =>
      match Crawler.init check config with
      | Urllib.ValueError message =>
          Some (Exit1 ("Configuration error: " +:+ message))
      | Urllib.Ok _ =>
          match Crawler.crawl fetch urljoin strftime config with
          | None => None
          | Some documents =>
              let documents_dict := to_dict <$> documents in
              Some (Exit0 (VDict [("docs", VList documents_dict);
                                  ("status", VStr "success")]))
          end
      end
  end.

End Cli.

(** ** [web_crawler.py], where it differs from the package *)

Module Legacy.
Import Models.

(** Its sibling scan stops at every heading, [h5] and [h6] included. *)
Definition extract_text_content (root : Soup.soup) : string :=
  TextExtractor.split_text_on_words
    (TextExtractor.structured_content TextExtractor.HEADINGS
       (TextExtractor.main_content (TextExtractor.cleaned root)))
    5000.

(** Its code blocks are read with [get_text(strip=True)]. *)
Definition add_pre (code_blocks : list string) (pre : Soup.found)
    : list string :=
  let code_text := Soup.get_text_strip "" (Soup.contents pre) in
  if Py.truthy code_text then code_blocks ++ [code_text] else code_blocks.

Definition add_code (code_blocks : list string) (code : Soup.found)
    : list string :=
  if Soup.has_parent "pre" code then code_blocks
  else
    let code_text := Soup.get_text_strip "" (Soup.contents code) in
    if Py.truthy code_text then code_blocks ++ [code_text] else code_blocks.

Definition extract_code_blocks (root : Soup.soup) : list string :=
  let code_blocks := [] in
  let code_blocks :=
    fold_left add_pre (Soup.find_all ["pre"] root) code_blocks in
  fold_left add_code (Soup.find_all ["code"] root) code_blocks.

(** Its document is a dictionary built in [crawl_page], with the code
    blocks under [metadata] only. *)
Definition document (url title content : string)
    (code_blocks : list string) (depth : Z) (crawled_at : string) : value :=
  VDict [
    ("url", VStr url);
    ("title", VStr title);
    ("content", VStr content);
    ("metadata", VDict [
      ("code_blocks", VList (VStr <$> code_blocks));
      ("depth", VInt depth);
      ("crawled_at", VStr crawled_at)
    ])
  ].

End Legacy.

(** ** The vocabulary of the properties *)

Module Spec.
Import Soup.

(** Strings all of whose characters satisfy a test; blank strings, strings
    free of whitespace, words. *)
Fixpoint all_chars (p : ascii → bool) (s : string) : bool :=
  match s with
  | "" => true
  | String c s' => p c && all_chars p s'
  end.

Definition blank (s : string) : bool := all_chars Py.isspace s.

Definition spaceless (s : string) : bool :=
  all_chars (λ c, negb (Py.isspace c)) s.

Definition word (s : string) : bool := Py.truthy s && spaceless s.

(** The words held by a state of the packing loop. *)
Definition words_of (st : list string * string) : list string :=
  flat_map Py.split st.1 ++ Py.split st.2.

(** The text of a block: trimmed at both ends, left out when empty. *)
Definition block_text (cs : list node) : list string :=
  let t := Py.strip (get_text cs) in if Py.truthy t then [t] else [].

(** The blocks of the [pre] elements of a tree, in document order. *)
Fixpoint pre_blocks_node (n : node) : list string :=
  match n with
  | Text _ => []
  | Tag nm _ cs =>
      (if String.eqb nm "pre" then block_text cs else [])
      ++ flat_map pre_blocks_node cs
  end.

Definition pre_blocks (root : soup) : list string :=
  flat_map pre_blocks_node root.

(** The blocks of the [code] elements that are not inside a [pre], in
    document order: nothing below a [pre] is looked at. *)
Fixpoint loose_code_blocks_node (n : node) : list string :=
  match n with
  | Text _ => []
  | Tag nm _ cs =>
      if String.eqb nm "pre" then []
      else (if String.eqb nm "code" then block_text cs else [])
           ++ flat_map loose_code_blocks_node cs
  end.

Definition loose_code_blocks (root : soup) : list string :=
  flat_map loose_code_blocks_node root.

(** What a search contributes to the two passes. *)
Definition pre_entry (e : found) : list string :=
  if named ["pre"] e then block_text (contents e) else [].

Definition code_entry (e : found) : list string :=
  if named ["code"] e
  then if has_parent "pre" e then [] else block_text (contents e)
  else [].

(** A sibling that ends a section: an element [h1], [h2], [h3] or [h4]. *)
Definition ends_section (sib : node) : bool :=
  match sib with
  | Text _ => false
  | Tag nm _ _ =>
      String.eqb nm "h1" || String.eqb nm "h2"
      || String.eqb nm "h3" || String.eqb nm "h4"
  end.

(** The siblings of a section: those before the first that ends it. *)
Fixpoint section_siblings (sibs : list node) : list node :=
  match sibs with
  | [] => []
  | sib :: rest =>
      if ends_section sib then [] else sib :: section_siblings rest
  end.

Definition section_content (sibs : list node) : list string :=
  filter (λ t, Py.truthy t)
    (TextExtractor.sibling_text <$> section_siblings sibs).

(** A URL without its fragment. *)
Definition strip_fragment (url : string) : string := Py.before "#" url.

End Spec.

(** ** Pages, servers and configurations of the examples *)

Module Example.
Import Soup Models Crawler.

Definition seed : string := "https://docs.python.org/3/".

Definition config : CrawlerConfig :=
  {| base_url := seed;
     max_depth := 3;
     max_pages := 200;
     timeout := 10;
     rate_limit_delay := Models.DEFAULT_DELAY;
     user_agent := Cli.DEFAULT_USER_AGENT |}.

Definition args : Cli.args :=
  {| Cli.arg_url := seed;
     Cli.arg_max_depth := 3;
     Cli.arg_max_pages := 100;
     Cli.arg_timeout := 10;
     Cli.arg_rate_limit := Models.DEFAULT_DELAY |}.

Definition clock (url : string) : string := "2025-01-01 00:00:00".

(** A library whose [urlparse] accepts every authority that has both
    brackets. *)
Definition check (authority : string) : option string := None.

Definition link (href : string) : node :=
  Tag "a" {[ "href" := href ]} [Text "link"].

(** A seed page that links to a host which shares the first twenty
    characters of the seed URL. *)
Definition offsite : string := "https://docs.python.evil.example/".

Definition fetch_offsite (url : string) : response :=
  if String.eqb url seed then Page [link offsite] else Page [].

(** A server whose pages link to a fragment of the seed page. *)
Definition fragment : string := "https://docs.python.org/3/#intro".

Definition fetch_fragment (url : string) : response :=
  Page [link fragment].

(** A seed page with two links, the first to a page that cannot be
    fetched. *)
Definition fetch_broken (url : string) : response :=
  if String.eqb url seed
  then Page [link "/broken"; link "https://docs.python.org/3/ok"]
  else if String.eqb url "https://docs.python.org/broken"
  then Fails RequestException
  else Page [].

(** [<pre><code>print(1)</code></pre>] and an inline [<code>x</code>]. *)
Definition code_page : soup :=
  [Tag "pre" ∅ [Tag "code" ∅ [Text "print(1)"]];
   Tag "p" ∅ [Text "see "; Tag "code" ∅ [Text "x"]]].

(** A region with an [h5] between an [h1] and an [h2]. *)
Definition headings_page : soup :=
  [Tag "main" ∅
     [Tag "h1" ∅ [Text " A "]; Tag "p" ∅ [Text "para"];
      Tag "h5" ∅ [Text "five"]; Text " tail ";
      Tag "h2" ∅ [Text "B"]; Tag "p" ∅ [Text "later"]]].

Definition document : CrawledDocument :=
  {| url := seed;
     title := "Python";
     content := "text";
     code_blocks := ["print(1)"; "x"];
     depth := 0;
     crawled_at := clock seed |}.

(** What [main] prints for the server with the broken link. *)
Definition printed : value :=
  Eval vm_compute in
    match Cli.main check fetch_broken Urllib.urljoin_rooted clock args with
    | Some (Cli.Exit0 result) => result
    | _ => VList []
    end.

End Example.

(** ** [web_crawler.py]: the crawl *)

Module LegacyCrawler.
Import Models.

Definition skip_extensions : list string :=
  [".pdf"; ".zip"; ".jpg"; ".png"; ".gif"; ".css"; ".js"].

(** The two attributes that change; a document is a dictionary. *)
Record state : Type := State {
  visited : gset string;
  documents : list value
}.

Definition initial : state := State ∅ [].

Section Crawl.

Variable fetch : string → Crawler.response.
Variable urljoin : string → string → option string.
Variable strftime : string → string.

Variable check : string → option string.

(** The arguments of the constructor. *)
Variable base_url : string.
Variable max_depth : Z.
Variable max_pages : Z.

(** [__init__]: it ends with the base domain, or with the [ValueError] of
    [urlparse]. *)
Definition init : Urllib.result string := Urllib.urlparse check base_url.

Definition base_domain : string := Urllib.netloc base_url.

Definition is_valid_url (url : string) (st : state) : Urllib.result bool :=
  match Urllib.urlparse check url with
  | Urllib.ValueError message => Urllib.ValueError message
  | Urllib.Ok netloc =>
      Urllib.Ok
        (if negb (String.eqb netloc base_domain) then false
         else if existsb (λ ext, Py.endswith (Py.lower url) ext)
                   skip_extensions
         then false
         else
           let url :=
             if Py.contains "#" url then Py.before "#" url else url in
           negb (bool_decide (url ∈ visited st)))
  end.

Definition document_of (url : string) (depth : Z) (root : Soup.soup)
    : value :=
  Legacy.document url (Crawler.title_text url root)
    (Legacy.extract_text_content root)
    (Legacy.extract_code_blocks (TextExtractor.cleaned root))
    depth (strftime url).

Definition next_url (href : string) : option string :=
  if Py.startswith href "/" then urljoin base_url href else Some href.

Definition follow (visit : string → state → option state)
    (sub_string : string) : list string → state → option state :=
  fix follow (links : list string) (st : state) : option state :=
    match links with
    | [] => Some st
    | href :: links' =>
        if Py.startswith href sub_string || Py.startswith href "/" then
          match next_url href with
          | None => Some st
          | Some next =>
              match visit next st with
              | None => None
              | Some st' => follow links' st'
              end
          end
        else follow links' st
    end.

(** [crawl_page], with fuel as in the package's crawler. *)
Fixpoint crawl_page (fuel : nat) (url : string) (depth : Z) (st : state)
    : option state :=
  if (depth >? max_depth) || (Z.of_nat (size (visited st)) >=? max_pages)
  then Some st
  else if bool_decide (url ∈ visited st) then Some st
  else
    match fuel with
    | O => None
    | S fuel' =>
        let st := State ({[url]} ∪ visited st) (documents st) in
        match fetch url with
        | Crawler.Fails _ => Some st
        | Crawler.Page root =>
            let document := document_of url depth root in
            let st := State (visited st) (documents st ++ [document]) in
            let sub_string := Py.slice_to 20 url in
            follow (λ next, crawl_page fuel' next (depth + 1)) sub_string
              (Crawler.hrefs (TextExtractor.cleaned root)) st
        end
    end.

Definition crawl : option (list value) :=
  documents <$> crawl_page (Z.to_nat (max_depth + 1)) base_url 0 initial.

(** [main], the output file set aside: no validation of the arguments. The
    constructor may raise the [ValueError] of [urlparse], which is an
    [Exception]: the fatal error, exit code 1. The crawl raises nothing, so
    otherwise the result is printed and the exit code is 0. *)
Definition main : option Cli.exit :=
  match init with
  | Urllib.ValueError message => Some (Cli.Exit1 ("Fatal error: " +:+ message))
  | Urllib.Ok _ =>
      match crawl with
      | None => None
      | Some documents =>
          Some (Cli.Exit0 (VDict [("docs", VList documents);
                                  ("status", VStr "success")]))
      end
  end.

End Crawl.

End LegacyCrawler.

(** ** More vocabulary *)

Module Props.
Import Soup Models.

(** The chunks [pack] joins. *)
Definition chunks_of (max_length : Z) (words : list string) : list string :=
  let '(chunks, current_chunk) :=
    fold_left (TextExtractor.pack_step max_length) words ([], "") in
  if Py.truthy current_chunk
  then chunks ++ [Py.strip current_chunk] else chunks.

(** A chunk is within the limit or is one of the words. *)
Definition fits (max_length : Z) (words : list string) (chunk : string)
    : Prop :=
  Py.len chunk ≤ max_length ∨ chunk ∈ words.

(** A string that is not empty and has no whitespace at either end. *)
Definition trimmed (s : string) : Prop :=
  Py.truthy s = true ∧ Py.strip s = s.

(** What the packing loop keeps true of its state: the chunks are trimmed
    and fit, and the current chunk is empty or begins with a character that
    is not whitespace and fits. *)
Definition packed (max_length : Z) (words : list string)
    (st : list string * string) : Prop :=
  Forall (λ c, trimmed c ∧ fits max_length words c) st.1
  ∧ (st.2 = ""
     ∨ (Py.truthy st.2 = true ∧ Py.lstrip st.2 = st.2
        ∧ (Py.len st.2 ≤ max_length
           ∨ (Spec.word st.2 = true ∧ st.2 ∈ words)))).

(** A string that begins with a blank line. *)
Definition starts_blank (s : string) : Prop :=
  ∃ rest, s = Py.nl +:+ Py.nl +:+ rest.

(** The [href]s of the [a] elements of a tree that are not below a noise
    element, in document order. *)
Fixpoint links_node (n : node) : list string :=
  match n with
  | Text _ => []
  | Tag nm at_ cs =>
      if bool_decide (nm ∈ TextExtractor.NOISE) then []
      else (if String.eqb nm "a" then option_list (at_ !! "href") else [])
           ++ flat_map links_node cs
  end.

Definition links_outside_noise (root : soup) : list string :=
  flat_map links_node root.

(** What a search contributes to the links. *)
Definition link_entry (e : found) : list string :=
  if named ["a"] e then option_list (attrs e !! "href") else [].

(** A document of the package and a dictionary of the older crawler that
    describe a visit of the same page at the same depth. The times are
    left out: each crawler reads the clock for itself. *)
Definition same_visit (d : CrawledDocument) (v : value) : Prop :=
  get "url" v = Some (VStr (url d))
  ∧ get "title" v = Some (VStr (title d))
  ∧ get "metadata" v ≫= get "depth" = Some (VInt (depth d)).

(** The states of the two crawlers agree. *)
Definition agree (st : Crawler.state) (lst : LegacyCrawler.state) : Prop :=
  Crawler.visited st = LegacyCrawler.visited lst
  ∧ Forall2 same_visit (Crawler.documents st) (LegacyCrawler.documents lst).

(** *** Depth-first order *)

Section Order.

Variable fetch : string → Crawler.response.
Variable urljoin : string → string → option string.
Variable strftime : string → string.
Variable config : CrawlerConfig.

(** The URLs the loop over the links of a page passes to [crawl_page], in
    the order of the links: the link is one that is followed, and
    [urljoin] has raised for no link before it. *)
Fixpoint targets (sub_string : string) (links : list string) : list string :=
  match links with
  | [] => []
  | href :: links' =>
      if Py.startswith href sub_string || Py.startswith href "/" then
        match Crawler.next_url urljoin config href with
        | None => []
        | Some next => next :: targets sub_string links'
        end
      else targets sub_string links'
  end.

Definition page_targets (url : string) (root : soup) : list string :=
  targets (Py.slice_to 20 url) (Crawler.hrefs (TextExtractor.cleaned root)).

(** [traversal urls depth docs]: the list [docs] is a depth-first pre-order
    walk from the URLs [urls], taken in their order, at [depth]. A URL
    contributes nothing, or the document of its page at [depth] followed at
    once by a walk, one level down, from the targets of that page; what the
    URLs after it contribute comes after all of that. *)
Inductive traversal : list string → Z → list CrawledDocument → Prop :=
| traversal_nil depth : traversal [] depth []
| traversal_skip next urls depth docs :
    traversal urls depth docs → traversal (next :: urls) depth docs
| traversal_page next urls depth root below rest :
    fetch next = Crawler.Page root →
    traversal (page_targets next root) (depth + 1) below →
    traversal urls depth rest →
    traversal (next :: urls) depth
      (Crawler.document_of strftime next depth root :: below ++ rest).

End Order.

End Props.

(** ** More pages and servers *)

Module Cases.
Import Soup Models Crawler.

(** A server that is down. *)
Definition fetch_down (url : string) : response := Fails RequestException.

(** The configuration of the examples with [max_depth] 0. *)
Definition config_flat : CrawlerConfig :=
  {| base_url := Example.seed;
     max_depth := 0;
     max_pages := 200;
     timeout := 10;
     rate_limit_delay := Models.DEFAULT_DELAY;
     user_agent := Cli.DEFAULT_USER_AGENT |}.

(** A page with relative links only. *)
Definition relative_page : soup :=
  [Example.link "page2.html"; Example.link "../up.html"].

Definition fetch_relative (url : string) : response := Page relative_page.

(** A page that does not exist. *)
Definition broken : string := "https://docs.python.org/broken".

(** The clock of a later run. *)
Definition clock_later (url : string) : string := "2025-01-01 00:00:05".

(** The documents of the crawl of the server with the broken link. *)
Definition documents_broken : list CrawledDocument :=
  Eval vm_compute in
    match crawl Example.fetch_broken Urllib.urljoin_rooted Example.clock
            Example.config with
    | Some docs => docs
    | None => []
    end.

End Cases.

(** * Properties *)

(** ** Strings *)

Section PyFacts.
Import Spec.
Local Arguments Py.isspace : simpl never.
Lemma sapp_cons c s t : String c s +:+ t = String c (s +:+ t).
Proof. reflexivity. Qed.
Lemma sapp_nil_l t : "" +:+ t = t.
Proof. reflexivity. Qed.
Lemma sapp_nil_r s : s +:+ "" = s.
Proof. induction s as [|c s IH]; [done|]. by rewrite sapp_cons, IH. Qed.
Lemma sapp_assoc (a b c : string) : (a +:+ b) +:+ c = a +:+ b +:+ c.
Proof. induction a as [|x a IH]; [done|]. by rewrite !sapp_cons, IH. Qed.
Lemma len_app a b : Py.len (a +:+ b) = Py.len a + Py.len b.
Proof.
  unfold Py.len. induction a as [|x a IH]; [rewrite sapp_nil_l; simpl; lia|].
  rewrite sapp_cons. simpl String.length. lia.
Qed.

Lemma split_go_blank cur sp b :
  blank sp = true → Py.truthy sp = true →
  Py.split_go cur (sp +:+ b) = Py.flush cur ++ Py.split b.
Proof.
  revert cur. induction sp as [|c sp IH]; intros cur Hb Ht; [done|].
  apply andb_prop in Hb as [Hc Hb]. rewrite sapp_cons. simpl. rewrite Hc.
  f_equal. destruct sp as [|d sp]; [done|].
  rewrite (IH "" Hb eq_refl). done.
Qed.

Lemma split_go_app cur a sp b :
  blank sp = true → Py.truthy sp = true →
  Py.split_go cur (a +:+ sp +:+ b) = Py.split_go cur a ++ Py.split b.
Proof.
  intros Hb Ht. revert cur. induction a as [|x a IH]; intros cur.
  - rewrite sapp_nil_l. by apply split_go_blank.
  - rewrite sapp_cons. simpl. destruct (Py.isspace x).
    + by rewrite IH, (assoc_L (++)).
    + apply IH.
Qed.

Lemma split_go_spaceless cur w s :
  spaceless w = true →
  Py.split_go cur (w +:+ s) = Py.split_go (cur +:+ w) s.
Proof.
  revert cur. induction w as [|c w IH]; intros cur Hw.
  - by rewrite sapp_nil_l, sapp_nil_r.
  - apply andb_prop in Hw as [Hc Hw]. rewrite sapp_cons. simpl.
    apply negb_true_iff in Hc. rewrite Hc, (IH _ Hw), sapp_assoc. done.
Qed.

Lemma split_word w : word w = true → Py.split w = [w].
Proof.
  intros [Ht Hw]%andb_prop. unfold Py.split.
  rewrite <- (sapp_nil_r w) at 1. rewrite (split_go_spaceless _ _ _ Hw).
  simpl. unfold Py.flush. rewrite sapp_nil_l. by rewrite Ht.
Qed.

Lemma spaceless_app a b :
  spaceless (a +:+ b) = spaceless a && spaceless b.
Proof.
  unfold spaceless. induction a as [|x a IH]; [done|].
  rewrite sapp_cons. simpl. by rewrite IH, andb_assoc.
Qed.

Lemma split_go_words cur s :
  spaceless cur = true → Forall (λ w, word w = true) (Py.split_go cur s).
Proof.
  revert cur. induction s as [|c s IH]; intros cur Hcur; simpl.
  - unfold Py.flush. destruct (Py.truthy cur) eqn:Ht; [|constructor].
    repeat constructor. unfold word. by rewrite Ht, Hcur.
  - destruct (Py.isspace c) eqn:Hc.
    + apply Forall_app. split; [|by apply IH].
      unfold Py.flush. destruct (Py.truthy cur) eqn:Ht; [|constructor].
      repeat constructor. unfold word. by rewrite Ht, Hcur.
    + apply IH. rewrite spaceless_app, Hcur. unfold spaceless. simpl.
      by rewrite Hc.
Qed.

Lemma split_words s : Forall (λ w, word w = true) (Py.split s).
Proof. by apply split_go_words. Qed.

Lemma split_lstrip s : Py.split (Py.lstrip s) = Py.split s.
Proof.
  unfold Py.split. induction s as [|c s IH]; [done|].
  simpl. destruct (Py.isspace c) eqn:Hc; [done|]. simpl. by rewrite Hc.
Qed.

Lemma split_go_rstrip cur s :
  Py.split_go cur (Py.rstrip s) = Py.split_go cur s.
Proof.
  revert cur. induction s as [|c s IH]; intros cur; [done|].
  simpl. destruct (Py.isspace c) eqn:Hc; simpl.
  - destruct (Py.truthy (Py.rstrip s)) eqn:Ht; simpl.
    + by rewrite Hc, IH.
    + rewrite <- (IH ""). destruct (Py.rstrip s); [|done].
      symmetry. exact (app_nil_r (Py.flush cur)).
  - by rewrite Hc, IH.
Qed.

Lemma split_strip s : Py.split (Py.strip s) = Py.split s.
Proof.
  unfold Py.strip, Py.split at 1. rewrite split_go_rstrip.
  apply split_lstrip.
Qed.

Lemma split_join sp l :
  blank sp = true → Py.truthy sp = true →
  Py.split (Py.join sp l) = flat_map Py.split l.
Proof.
  intros Hb Ht. induction l as [|x l IH]; [done|].
  destruct l as [|y l].
  - simpl. by rewrite (right_id_L [] (++)).
  - change (Py.join sp (x :: y :: l)) with (x +:+ sp +:+ Py.join sp (y :: l)).
    unfold Py.split at 1. rewrite (split_go_app _ _ _ _ Hb Ht), IH. done.
Qed.
End PyFacts.

(** ** The chunker *)

Section ChunkerFacts.
Import TextExtractor Spec.
Local Arguments Py.isspace : simpl never.

Lemma split_falsy s : Py.truthy s = false → Py.split s = [].
Proof. by destruct s. Qed.

Lemma pack_step_words n st w :
  word w = true → words_of (pack_step n st w) = words_of st ++ [w].
Proof.
  intros Hw. destruct st as [chunks cur]. unfold pack_step, words_of.
  destruct (_ >? _); destruct (Py.truthy cur) eqn:Ht; simpl.
  - rewrite flat_map_app. simpl.
    by rewrite split_strip, (split_word _ Hw), app_nil_r.
  - rewrite flat_map_app. simpl.
    by rewrite (split_falsy _ Ht), (split_word _ Hw), !app_nil_r.
  - unfold Py.split at 2. rewrite (split_go_app "" cur " " w); [|done..].
    by rewrite (split_word _ Hw), (assoc_L (++)).
  - by rewrite (split_falsy _ Ht), (split_word _ Hw), app_nil_r.
Qed.

Lemma pack_loop_words n ws st :
  Forall (λ w, word w = true) ws →
  words_of (fold_left (pack_step n) ws st) = words_of st ++ ws.
Proof.
  intros Hws. revert st.
  induction Hws as [|w ws Hw _ IH]; intros st; simpl.
  - by rewrite app_nil_r.
  - rewrite IH, (pack_step_words _ _ _ Hw), <- (assoc_L (++)). done.
Qed.

Lemma split_pack n ws :
  Forall (λ w, word w = true) ws → Py.split (pack n ws) = ws.
Proof.
  intros Hws. unfold pack.
  pose proof (pack_loop_words n ws ([], "") Hws) as Hloop.
  destruct (fold_left _ _ _) as [chunks cur]. unfold words_of in Hloop.
  simpl in Hloop. rewrite split_join; [|done..].
  destruct (Py.truthy cur) eqn:Ht.
  - rewrite flat_map_app. simpl. by rewrite split_strip, app_nil_r.
  - rewrite (split_falsy _ Ht), app_nil_r in Hloop. done.
Qed.

Lemma split_chunk text n :
  Py.split (split_text_on_words text n) = Py.split text.
Proof.
  unfold split_text_on_words. destruct (_ <=? _); [done|].
  apply split_pack, split_words.
Qed.

(** C4. The words of [split_text_on_words text max_length], read by
    [split()], which takes the blank lines between chunks as whitespace, are
    the words of [text]: the same list, hence the same multiset. No word is
    dropped, repeated or changed, for every text and every limit. *)
Theorem chunk_keeps_words text max_length :
  Py.split (split_text_on_words text max_length) = Py.split text
  ∧ Py.split (split_text_on_words text max_length) ≡ₚ Py.split text.
Proof. split; [apply split_chunk|by rewrite split_chunk]. Qed.

(** C5. Chunking is idempotent: chunking the result of chunking [text] at
    limit [n] again at [n] gives the same string, for every text and every
    limit. *)
Theorem chunk_idempotent text n :
  split_text_on_words (split_text_on_words text n) n
  = split_text_on_words text n.
Proof.
  unfold split_text_on_words at 1.
  destruct (_ <=? _) eqn:Hfit; [done|].
  rewrite split_chunk. unfold split_text_on_words.
  destruct (Py.len text <=? n) eqn:Hlen; [|done].
  unfold split_text_on_words in Hfit. rewrite Hlen in Hfit. congruence.
Qed.
End ChunkerFacts.

(** ** Code blocks *)

Section CodeBlockFacts.
Import Soup TextExtractor Spec.

Lemma flat_map_filter {A B} (p : A → bool) (f : A → list B) (l : list A) :
  flat_map f (filter (λ x, p x) l)
  = flat_map (λ x, if p x then f x else []) l.
Proof.
  induction l as [|x l IH]; [done|]. destruct (p x) eqn:Hp.
  - rewrite filter_cons_True by (by apply Is_true_true).
    simpl. by rewrite Hp, IH.
  - rewrite filter_cons_False by (by apply Is_true_false).
    simpl. by rewrite Hp, IH.
Qed.

(** The two loops append the block of each element they keep. *)
Lemma fold_add_pre l acc :
  fold_left add_pre l acc
  = acc ++ flat_map (λ e, block_text (contents e)) l.
Proof.
  revert acc. induction l as [|e l IH]; intros acc; simpl.
  - by rewrite app_nil_r.
  - rewrite IH. unfold add_pre, block_text.
    destruct (Py.truthy _); simpl; [by rewrite <- (assoc_L (++))|done].
Qed.

Lemma fold_add_code l acc :
  fold_left add_code l acc
  = acc ++ flat_map (λ e, if has_parent "pre" e then []
                          else block_text (contents e)) l.
Proof.
  revert acc. induction l as [|e l IH]; intros acc; simpl.
  - by rewrite app_nil_r.
  - rewrite IH. unfold add_code, block_text.
    destruct (has_parent "pre" e); [done|].
    destruct (Py.truthy _); simpl; [by rewrite <- (assoc_L (++))|done].
Qed.

Lemma named_single nm anc e_nm at_ cs rest :
  named [nm] (Found anc e_nm at_ cs rest) = String.eqb e_nm nm.
Proof.
  unfold named. simpl. destruct (String.eqb_spec e_nm nm) as [->|Hne].
  - apply bool_decide_eq_true. apply list_elem_of_singleton. done.
  - apply bool_decide_eq_false. by intros ?%list_elem_of_singleton.
Qed.

Lemma walk_node_tag anc nm at_ cs rest :
  walk_node anc (Tag nm at_ cs) rest
  = Found anc nm at_ cs rest :: walk (nm :: anc) cs.
Proof. reflexivity. Qed.

Lemma walk_cons anc c l : walk anc (c :: l) = walk_node anc c l ++ walk anc l.
Proof. reflexivity. Qed.

(** The search for [pre] elements meets them in the order of the
    traversal that defines [pre_blocks]. *)
Lemma walk_pre_blocks_node n : ∀ anc rest,
  flat_map pre_entry (walk_node anc n rest) = pre_blocks_node n.
Proof.
  induction n as [s|nm at_ cs IH] using node_forest_ind; intros anc rest.
  - done.
  - rewrite walk_node_tag. simpl flat_map at 1.
    unfold pre_entry at 1. rewrite named_single.
    simpl. f_equal. generalize (nm :: anc). intros anc'.
    induction IH as [|c l Hc _ IHl]; [done|].
    rewrite walk_cons, flat_map_app, Hc. simpl. by f_equal.
Qed.

Lemma walk_pre_blocks root anc :
  flat_map pre_entry (walk anc root) = pre_blocks root.
Proof.
  induction root as [|c l IH]; [done|].
  rewrite walk_cons, flat_map_app, walk_pre_blocks_node. simpl. by f_equal.
Qed.

(** The search for [code] elements, with those inside a [pre] left out,
    meets the others in the order of the traversal that defines
    [loose_code_blocks]; below a [pre] it contributes nothing. *)
Lemma walk_code_blocks_node n : ∀ anc rest,
  flat_map code_entry (walk_node anc n rest)
  = if bool_decide ("pre" ∈ anc) then [] else loose_code_blocks_node n.
Proof.
  induction n as [s|nm at_ cs IH] using node_forest_ind; intros anc rest.
  - simpl. by case_bool_decide.
  - rewrite walk_node_tag. simpl flat_map at 1.
    unfold code_entry at 1. rewrite named_single.
    unfold has_parent. simpl ancestors. simpl contents.
    assert (flat_map code_entry (walk (nm :: anc) cs)
            = if bool_decide ("pre" ∈ nm :: anc) then []
              else flat_map loose_code_blocks_node cs) as ->.
    { generalize (nm :: anc). intros anc'.
      induction IH as [|c l Hc _ IHl]; [by case_bool_decide|].
      rewrite walk_cons, flat_map_app, Hc, IHl. simpl.
      by case_bool_decide. }
    simpl loose_code_blocks_node.
    destruct (String.eqb_spec nm "pre") as [->|Hne].
    + rewrite (bool_decide_eq_true_2 ("pre" ∈ "pre" :: anc))
        by apply list_elem_of_here.
      simpl. by case_bool_decide.
    + case_bool_decide as Hin.
      * rewrite bool_decide_eq_true_2 by by apply list_elem_of_further.
        by destruct (String.eqb nm "code").
      * rewrite bool_decide_eq_false_2; [done|].
        intros [?|?]%elem_of_cons; congruence.
Qed.

Lemma walk_code_blocks root :
  flat_map code_entry (walk [] root) = loose_code_blocks root.
Proof.
  induction root as [|c l IH]; [done|].
  rewrite walk_cons, flat_map_app, walk_code_blocks_node. simpl.
  by f_equal.
Qed.

Lemma extract_code_blocks_spec root :
  extract_code_blocks root = pre_blocks root ++ loose_code_blocks root.
Proof.
  unfold extract_code_blocks, find_all.
  rewrite fold_add_code, fold_add_pre. simpl. f_equal.
  - rewrite flat_map_filter. apply walk_pre_blocks.
  - rewrite flat_map_filter. apply walk_code_blocks.
Qed.

(** C6. For every parsed page, [extract_code_blocks] returns the non-empty
    end-trimmed texts of the [pre] elements in document order, followed by
    the non-empty end-trimmed texts of the [code] elements that are not
    inside a [pre], in document order. The second loop leaves the list as it
    is at a [code] element that has a [pre] above it, so such an element
    adds no entry of its own. The page [<pre><code>print(1)</code></pre>]
    with an inline [<code>x</code>] gives ["print(1)"; "x"]. *)
Theorem extract_code_blocks_order :
  (∀ root,
     extract_code_blocks root = pre_blocks root ++ loose_code_blocks root)
  ∧ (∀ code_blocks code,
       has_parent "pre" code = true → add_code code_blocks code = code_blocks)
  ∧ extract_code_blocks Example.code_page = ["print(1)"; "x"].
Proof.
  split; [apply extract_code_blocks_spec|]. split; [|by vm_compute].
  intros code_blocks code Hpre. unfold add_code. by rewrite Hpre.
Qed.

(** The older crawler strips every string of a block, so its blocks are not
    the end-trimmed texts. *)
Example legacy_code_blocks_differ :
  let page := [Tag "pre" ∅ [Text " a "; Tag "b" ∅ [Text " b "]]] in
  extract_code_blocks page = ["a  b"]
  ∧ Legacy.extract_code_blocks page = ["ab"].
Proof. by vm_compute. Qed.

End CodeBlockFacts.

(** ** Sections *)

Section SectionFacts.
Import Soup TextExtractor Spec.

Lemma stops_ends sib : stops_section SECTION_STOPS sib = ends_section sib.
Proof.
  destruct sib as [s|nm at_ cs]; [done|]. simpl.
  destruct (String.eqb_spec nm "h1") as [->|?]; [by vm_compute|].
  destruct (String.eqb_spec nm "h2") as [->|?]; [by vm_compute|].
  destruct (String.eqb_spec nm "h3") as [->|?]; [by vm_compute|].
  destruct (String.eqb_spec nm "h4") as [->|?]; [by vm_compute|].
  rewrite (bool_decide_eq_false_2 (nm ∈ SECTION_STOPS)).
  - by rewrite andb_false_r.
  - unfold SECTION_STOPS. rewrite !elem_of_cons, elem_of_nil.
    tauto.
Qed.

Lemma scan_siblings_spec sibs acc :
  scan_siblings SECTION_STOPS sibs acc = acc ++ section_content sibs.
Proof.
  unfold section_content. revert acc.
  induction sibs as [|sib rest IH]; intros acc; simpl.
  - by rewrite app_nil_r.
  - rewrite stops_ends. destruct (ends_section sib); simpl.
    + by rewrite app_nil_r.
    + destruct (Py.truthy (sibling_text sib)) eqn:Ht.
      * rewrite filter_cons_True by (by apply Is_true_true).
        by rewrite IH, <- (assoc_L (++)).
      * rewrite filter_cons_False by (by apply Is_true_false).
        apply IH.
Qed.

(** C7. The scan over the siblings that follow a heading collects the texts
    of the siblings before the first element [h1], [h2], [h3] or [h4], and
    of no other: an [h5] or [h6] sibling does not stop the scan, its text
    joins what has been collected and the scan goes on, while an [h1] to
    [h4] sibling stops it. On a region with an [h5] between an [h1] and an
    [h2], the text of the [h5] is part of the section of the [h1]. *)
Theorem section_scan_stops_at_h1_to_h4 :
  (∀ sibs, scan_siblings SECTION_STOPS sibs [] = section_content sibs)
  ∧ (∀ nm at_ cs rest acc,
       nm = "h5" ∨ nm = "h6" →
       scan_siblings SECTION_STOPS (Tag nm at_ cs :: rest) acc
       = scan_siblings SECTION_STOPS rest
           (acc ++ filter (λ t, Py.truthy t) [get_text_strip "" cs]))
  ∧ (∀ nm at_ cs rest acc,
       nm ∈ ["h1"; "h2"; "h3"; "h4"] →
       scan_siblings SECTION_STOPS (Tag nm at_ cs :: rest) acc = acc)
  ∧ extract_text_content Example.headings_page 5000
    = Py.join Py.nl
        [""; ""; "A"; "para"; "five"; "tail"; ""; "five"; "tail";
         ""; "B"; "later"].
Proof.
  split; [|split; [|split]].
  - intros sibs. apply scan_siblings_spec.
  - intros nm at_ cs rest acc Hnm. simpl.
    assert (Py.truthy nm && bool_decide (nm ∈ SECTION_STOPS) = false) as ->.
    { by destruct Hnm as [-> | ->]; vm_compute. }
    destruct (Py.truthy (get_text_strip "" cs)) eqn:Ht.
    + by rewrite filter_cons_True by (by apply Is_true_true).
    + rewrite filter_cons_False by (by apply Is_true_false).
      by rewrite filter_nil, app_nil_r.
  - intros nm at_ cs rest acc Hnm. simpl.
    rewrite (bool_decide_eq_true_2 (nm ∈ SECTION_STOPS)) by done.
    assert (Py.truthy nm = true) as ->; [|done].
    destruct nm; [|done].
    rewrite !elem_of_cons, elem_of_nil in Hnm.
    by destruct Hnm as [?|[?|[?|[?|[]]]]].
  - by vm_compute.
Qed.

(** The older crawler stops the scan at [h5] and [h6] as well. *)
Example legacy_scan_stops_at_h5 :
  Legacy.extract_text_content Example.headings_page
  = Py.join Py.nl [""; ""; "A"; "para"; ""; "five"; "tail"; ""; "B"; "later"].
Proof. by vm_compute. Qed.

End SectionFacts.

(** ** Serialization *)

Section DictFacts.
Import Models.

Lemma to_dict_code_blocks d :
  get "code_blocks" (to_dict d) = Some (VList (VStr <$> code_blocks d))
  ∧ get "metadata" (to_dict d) ≫= get "code_blocks"
    = Some (VList (VStr <$> code_blocks d)).
Proof. by split. Qed.

(** C10. The dictionary [to_dict] builds for a document has a key
    [code_blocks] at the top, and its value is the value of [code_blocks]
    inside [metadata]: the list of the document's code blocks, in both
    places. So it is for every object under [docs] in the result that
    [main] prints. *)
Theorem to_dict_code_blocks_twice :
  (∀ d,
     get "code_blocks" (to_dict d) = Some (VList (VStr <$> code_blocks d))
     ∧ get "metadata" (to_dict d) ≫= get "code_blocks"
       = Some (VList (VStr <$> code_blocks d)))
  ∧ (∀ check fetch urljoin strftime a result,
       Cli.main check fetch urljoin strftime a = Some (Cli.Exit0 result) →
       ∃ docs,
         get "docs" result = Some (VList docs)
         ∧ Forall (λ v, ∃ blocks,
                     get "code_blocks" v = Some blocks
                     ∧ get "metadata" v ≫= get "code_blocks" = Some blocks)
             docs).
Proof.
  split; [apply to_dict_code_blocks|].
  intros check fetch urljoin strftime a result. unfold Cli.main.
  destruct (post_init _); [done|].
  destruct (Crawler.init _ _); [|done].
  destruct (Crawler.crawl _ _ _ _) as [documents|]; [|done].
  intros [= <-]. exists (to_dict <$> documents). split; [done|].
  apply Forall_fmap, Forall_forall. intros d _.
  exists (VList (VStr <$> code_blocks d)). apply to_dict_code_blocks.
Qed.

(** The document of the older crawler has no [code_blocks] at the top. *)
Example legacy_document_code_blocks :
  let d := Legacy.document "u" "t" "c" ["x"] 0 "now" in
  get "code_blocks" d = None
  ∧ get "metadata" d ≫= get "code_blocks" = Some (VList [VStr "x"]).
Proof. by vm_compute. Qed.

End DictFacts.

(** ** The crawl *)

Section CrawlFacts.
Import Models Crawler.

Variable fetch : string → response.
Variable urljoin : string → string → option string.
Variable strftime : string → string.
Variable config : CrawlerConfig.

Local Abbreviation crawl_page := (Crawler.crawl_page fetch urljoin strftime config).
Local Abbreviation follow := (Crawler.follow urljoin config).
Local Abbreviation document_of := (Crawler.document_of strftime).
Local Abbreviation consistent := (Crawler.consistent fetch strftime config).
Local Abbreviation recorded := (Crawler.recorded fetch strftime config).

(** One step of [crawl_page]. *)
Lemma crawl_page_unfold fuel url depth st :
  crawl_page fuel url depth st =
  if (depth >? max_depth config)
     || (Z.of_nat (size (visited st)) >=? max_pages config)
  then Some st
  else if bool_decide (url ∈ visited st) then Some st
  else
    match fuel with
    | O => None
    | S fuel' =>
        match fetch url with
        | Fails _ => Some (State ({[url]} ∪ visited st) (documents st))
        | Page root =>
            follow (λ next, crawl_page fuel' next (depth + 1))
              (Py.slice_to 20 url)
              (hrefs (TextExtractor.cleaned root))
              (State ({[url]} ∪ visited st)
                 (documents st ++ [document_of url depth root]))
        end
    end.
Proof. by destruct fuel. Qed.

(** *** The loop over the links *)

Lemma follow_invariant (P : state → Prop) visit sub_string links :
  (∀ next st st', P st → visit next st = Some st' → P st') →
  ∀ st st', P st → follow visit sub_string links st = Some st' → P st'.
Proof.
  intros Hvisit.
  induction links as [|href links IH]; intros st st' HP; simpl.
  - by intros [= <-].
  - destruct (_ || _); [|by apply IH].
    destruct (next_url _ _ _) as [next|]; [|by intros [= <-]].
    destruct (visit next st) as [st1|] eqn:Hv; [|done].
    apply IH. by eapply Hvisit.
Qed.

Lemma follow_total visit sub_string links st :
  (∀ next st, is_Some (visit next st)) →
  is_Some (follow visit sub_string links st).
Proof.
  intros Hvisit. revert st.
  induction links as [|href links IH]; intros st; simpl.
  - done.
  - destruct (_ || _); [|by apply IH].
    destruct (next_url _ _ _) as [next|]; [|done].
    destruct (Hvisit next st) as [st1 ->]. apply IH.
Qed.

Lemma follow_mono visit visit' sub_string links st st' :
  (∀ next st st', visit next st = Some st' → visit' next st = Some st') →
  follow visit sub_string links st = Some st' →
  follow visit' sub_string links st = Some st'.
Proof.
  intros Hvisit. revert st.
  induction links as [|href links IH]; intros st; simpl; [done|].
  destruct (_ || _); [|by apply IH].
  destruct (next_url _ _ _) as [next|]; [|done].
  destruct (visit next st) as [st1|] eqn:Hv; [|done].
  rewrite (Hvisit _ _ _ Hv). apply IH.
Qed.

(** *** Termination *)

(** A call at [depth] needs fuel for the levels from [depth] to
    [max_depth]. *)
Lemma crawl_page_total fuel url depth st :
  (Z.to_nat (max_depth config + 1 - depth) ≤ fuel)%nat →
  is_Some (crawl_page fuel url depth st).
Proof.
  revert url depth st.
  induction fuel as [|fuel IH]; intros url depth st Hfuel;
    rewrite crawl_page_unfold.
  - destruct (depth >? max_depth config) eqn:Hd; [done|]. lia.
  - destruct (_ || _) eqn:Hguard; [done|]. case_bool_decide; [done|].
    apply orb_false_elim in Hguard as [Hd _].
    destruct (fetch url); [done|]. apply follow_total.
    intros next st'. apply IH. lia.
Qed.

(** More fuel does not change a result. *)
Lemma crawl_page_fuel_mono fuel fuel' url depth st st' :
  (fuel ≤ fuel')%nat →
  crawl_page fuel url depth st = Some st' →
  crawl_page fuel' url depth st = Some st'.
Proof.
  revert fuel' url depth st st'.
  induction fuel as [|fuel IH]; intros fuel' url depth st st' Hle;
    rewrite !crawl_page_unfold;
    (destruct (_ || _); [done|]); (case_bool_decide; [done|]); [done|].
  destruct fuel' as [|fuel']; [lia|].
  destruct (fetch url); [done|]. apply follow_mono.
  intros next s s'. apply IH. lia.
Qed.

Lemma crawl_page_guarded fuel url depth st :
  max_depth config < depth
  ∨ max_pages config ≤ Z.of_nat (size (visited st))
  ∨ url ∈ visited st →
  crawl_page fuel url depth st = Some st.
Proof.
  intros Hguard. rewrite crawl_page_unfold.
  destruct (_ || _) eqn:Hor; [done|].
  apply orb_false_elim in Hor as [Hd Hroom].
  destruct Hguard as [?|[?|Hin]]; [lia..|].
  by rewrite bool_decide_eq_true_2.
Qed.

Lemma crawl_page_descends fuel url depth st root :
  depth ≤ max_depth config →
  Z.of_nat (size (visited st)) < max_pages config →
  url ∉ visited st →
  fetch url = Page root →
  crawl_page (S fuel) url depth st
  = follow (λ next, crawl_page fuel next (depth + 1))
      (Py.slice_to 20 url) (hrefs (TextExtractor.cleaned root))
      (State ({[url]} ∪ visited st)
         (documents st ++ [document_of url depth root])).
Proof.
  intros Hdepth Hroom Hnew Hfetch. rewrite crawl_page_unfold, Hfetch.
  destruct (_ || _) eqn:Hguard.
  { exfalso. apply orb_prop in Hguard as [?|?]; lia. }
  by rewrite bool_decide_eq_false_2.
Qed.

(** C9. The crawl terminates, for every server and every configuration. A
    call of [crawl_page] returns at once, whatever fuel it has, when the
    depth is above [max_depth], the page budget is used up or the URL is
    visited; every other call makes its recursive calls one level deeper
    with one unit of fuel less, and a call at [depth] returns with fuel for
    the levels from [depth] to [max_depth], so [crawl] returns with fuel
    [max_depth + 1]: no chain of nested calls that got past the guards is
    longer than that. More fuel gives the same result. *)
Theorem crawl_terminates :
  (∀ fuel url depth st,
     max_depth config < depth
     ∨ max_pages config ≤ Z.of_nat (size (visited st))
     ∨ url ∈ visited st →
     crawl_page fuel url depth st = Some st)
  ∧ (∀ fuel url depth st root,
       depth ≤ max_depth config →
       Z.of_nat (size (visited st)) < max_pages config →
       url ∉ visited st →
       fetch url = Page root →
       crawl_page (S fuel) url depth st
       = follow (λ next, crawl_page fuel next (depth + 1))
           (Py.slice_to 20 url) (hrefs (TextExtractor.cleaned root))
           (State ({[url]} ∪ visited st)
              (documents st ++ [document_of url depth root])))
  ∧ (∀ fuel url depth st,
       (Z.to_nat (max_depth config + 1 - depth) ≤ fuel)%nat →
       is_Some (crawl_page fuel url depth st))
  ∧ (∀ fuel fuel' url depth st st',
       (fuel ≤ fuel')%nat →
       crawl_page fuel url depth st = Some st' →
       crawl_page fuel' url depth st = Some st')
  ∧ is_Some (crawl fetch urljoin strftime config).
Proof.
  split; [apply crawl_page_guarded|].
  split; [apply crawl_page_descends|].
  split; [apply crawl_page_total|].
  split; [apply crawl_page_fuel_mono|].
  unfold crawl. apply fmap_is_Some, crawl_page_total.
  unfold crawl_fuel. lia.
Qed.

(** *** The invariant *)

Lemma extends_refl st : extends st st.
Proof. by split. Qed.

Lemma extends_trans st1 st2 st3 :
  extends st1 st2 → extends st2 st3 → extends st1 st3.
Proof. intros [??] [??]. split; by etrans. Qed.

Lemma recorded_mono st st' d :
  visited st ⊆ visited st' → recorded st d → recorded st' d.
Proof. intros Hsub (Hin & ? & ?). split; [by apply Hsub|done]. Qed.

Lemma size_visit url (X : gset string) :
  url ∉ X → size ({[url]} ∪ X) = S (size X).
Proof.
  intros Hnew. rewrite size_union by by apply disjoint_singleton_l.
  by rewrite size_singleton.
Qed.

Lemma consistent_visit url st :
  consistent st → url ∉ visited st →
  Z.of_nat (size (visited st)) < max_pages config →
  consistent (State ({[url]} ∪ visited st) (documents st)).
Proof.
  intros (Hsize & Hlen & Hnodup & Hdocs) Hnew Hroom.
  unfold Crawler.consistent. simpl. rewrite (size_visit _ _ Hnew).
  repeat split; [lia|lia|done|].
  eapply Forall_impl; [done|]. intros d. apply recorded_mono.
  apply union_subseteq_r.
Qed.

Lemma consistent_record url depth root st :
  consistent st → url ∉ visited st →
  Z.of_nat (size (visited st)) < max_pages config →
  0 ≤ depth ≤ max_depth config → fetch url = Page root →
  consistent (State ({[url]} ∪ visited st)
                (documents st ++ [document_of url depth root])).
Proof.
  intros (Hsize & Hlen & Hnodup & Hdocs) Hnew Hroom Hdepth Hfetch.
  unfold Crawler.consistent. simpl.
  rewrite (size_visit _ _ Hnew), length_app, fmap_app. simpl.
  repeat split; [lia|lia| |].
  - apply NoDup_app. repeat split; [done| |apply NoDup_singleton].
    intros u Hu ->%list_elem_of_singleton.
    apply list_elem_of_fmap in Hu as (d & -> & Hd).
    rewrite Forall_forall in Hdocs. by destruct (Hdocs d Hd) as [? _].
  - apply Forall_app. split.
    + eapply Forall_impl; [done|]. intros d. apply recorded_mono.
      apply union_subseteq_r.
    + repeat constructor; simpl; [|lia..|by exists root].
      apply elem_of_union_l. by apply elem_of_singleton.
Qed.

Lemma consistent_initial : 0 ≤ max_pages config → consistent initial.
Proof.
  intros ?. unfold Crawler.consistent.
  change (visited initial) with (∅ : gset string).
  change (documents initial) with (@nil CrawledDocument).
  rewrite size_empty.
  repeat split; [lia|simpl; lia|constructor|constructor].
Qed.

(** Every call of [crawl_page] at a depth that is not negative keeps the
    store consistent and only adds to it. *)
Lemma crawl_page_consistent fuel url depth st st' :
  0 ≤ depth → consistent st → crawl_page fuel url depth st = Some st' →
  consistent st' ∧ extends st st'.
Proof.
  revert url depth st st'.
  induction fuel as [|fuel IH]; intros url depth st st' Hdepth Hst;
    rewrite crawl_page_unfold;
    (destruct (_ || _) eqn:Hguard;
      [intros [= <-]; split; [done|apply extends_refl]|]);
    (case_bool_decide as Hnew;
      [intros [= <-]; split; [done|apply extends_refl]|]); [done|].
  apply orb_false_elim in Hguard as [Hd Hroom].
  assert (Z.of_nat (size (visited st)) < max_pages config) by lia.
  assert (depth ≤ max_depth config) by lia.
  destruct (fetch url) as [e|root] eqn:Hfetch.
  - intros [= <-]. split; [by apply consistent_visit|].
    split; simpl; [apply union_subseteq_r|done].
  - intros Hfollow.
    eapply (follow_invariant
              (λ s, consistent s
                    ∧ extends
                        (State ({[url]} ∪ visited st)
                           (documents st ++ [document_of url depth root]))
                        s))
      in Hfollow.
    + destruct Hfollow as [Hc He]. split; [done|].
      eapply extends_trans; [|done]. split; simpl.
      * apply union_subseteq_r.
      * by apply prefix_app_r.
    + intros next s s' [Hc He] Hv.
      apply IH in Hv as [Hc' He']; [|lia|done].
      split; [done|]. by eapply extends_trans.
    + split; [|apply extends_refl]. by apply consistent_record.
Qed.

(** [crawl] returns, and its store is consistent. *)
Lemma crawl_consistent :
  0 ≤ max_pages config →
  ∃ st, crawl_page (crawl_fuel config) (base_url config) 0 initial = Some st
        ∧ consistent st.
Proof.
  intros Hpages.
  destruct (crawl_page_total (crawl_fuel config) (base_url config) 0 initial)
    as [st Hst]; [unfold crawl_fuel; lia|].
  exists st. split; [done|].
  apply crawl_page_consistent in Hst as [Hc _];
    [done|lia|by apply consistent_initial].
Qed.

(** C3. With [max_depth] at least 0 and [max_pages] at least 1, for every
    server, the crawl returns a list of at most [max_pages] documents, each
    recorded at a depth of at most [max_depth]. *)
Theorem crawl_within_budgets :
  0 ≤ max_depth config → 1 ≤ max_pages config →
  ∃ docs,
    crawl fetch urljoin strftime config = Some docs
    ∧ Z.of_nat (length docs) ≤ max_pages config
    ∧ Forall (λ d, depth d ≤ max_depth config) docs.
Proof.
  intros _ Hpages.
  destruct crawl_consistent as (st & Hst & Hsize & Hlen & _ & Hdocs); [lia|].
  exists (documents st). unfold crawl. rewrite Hst.
  split; [done|]. split; [lia|].
  eapply Forall_impl; [done|]. intros d (_ & ? & _). lia.
Qed.

(** No two documents of a crawl have the same URL, the fragment
    included. *)
Lemma crawl_urls_NoDup docs :
  0 ≤ max_pages config →
  crawl fetch urljoin strftime config = Some docs → NoDup (url <$> docs).
Proof.
  intros Hpages.
  destruct (crawl_consistent Hpages) as (st & Hst & _ & _ & Hnodup & _).
  unfold crawl. rewrite Hst. by intros [= <-].
Qed.

(** *** Errors *)

Lemma post_init_valid :
  post_init config = None →
  0 ≤ max_depth config ∧ 1 ≤ max_pages config.
Proof.
  unfold post_init.
  destruct (max_depth config <? 0) eqn:?; [done|].
  destruct (max_pages config <? 1) eqn:?; [done|]. lia.
Qed.

(** A page that cannot be fetched is marked visited and nothing else. *)
Lemma crawl_page_fails fuel url depth st st' e :
  fetch url = Fails e →
  crawl_page fuel url depth st = Some st' →
  documents st' = documents st
  ∧ (st' = st ∨ visited st' = {[url]} ∪ visited st).
Proof.
  intros Hfetch. rewrite crawl_page_unfold, Hfetch.
  destruct (_ || _); [intros [= <-]; auto|].
  case_bool_decide; [intros [= <-]; auto|].
  destruct fuel; [done|]. intros [= <-]. auto.
Qed.

(** When the seed page is fetched, its document is the first of the
    crawl. *)
Lemma crawl_seed_first root :
  0 ≤ max_depth config → 1 ≤ max_pages config →
  fetch (base_url config) = Page root →
  ∃ st,
    crawl_page (crawl_fuel config) (base_url config) 0 initial = Some st
    ∧ consistent st
    ∧ head (documents st) = Some (document_of (base_url config) 0 root).
Proof.
  intros Hdepth Hpages Hfetch.
  destruct crawl_consistent as (st & Hst & Hc); [lia|].
  exists st. split; [done|]. split; [done|].
  revert Hst. rewrite crawl_page_unfold, Hfetch.
  change (visited initial) with (∅ : gset string).
  change (documents initial) with (@nil CrawledDocument).
  rewrite size_empty.
  destruct (_ || _) eqn:Hguard.
  { exfalso. apply orb_prop in Hguard as [?|Hfull]; [lia|].
    apply Z.geb_le in Hfull. lia. }
  rewrite bool_decide_eq_false_2 by apply not_elem_of_empty.
  unfold crawl_fuel. destruct (Z.to_nat _) as [|fuel] eqn:Hfuel; [lia|].
  intros Hfollow.
  eapply (follow_invariant
            (λ s, consistent s
                  ∧ [document_of (base_url config) 0 root]
                    `prefix_of` documents s)) in Hfollow.
  - by destruct Hfollow as [_ [rest ->]].
  - intros next s s' [Hs Hpre] Hv.
    apply crawl_page_consistent in Hv as [Hs' [_ He]]; [|lia|done].
    split; [done|]. by etrans.
  - split; [|done].
    apply (consistent_record _ 0 root initial);
      [by apply consistent_initial; lia|apply not_elem_of_empty| |lia|done].
    change (visited initial) with (∅ : gset string).
    rewrite size_empty. lia.
Qed.

End CrawlFacts.

(** *** After a failure *)

Section FailureFacts.
Import Models Crawler.

Variable fetch : string → response.
Variable urljoin : string → string → option string.
Variable strftime : string → string.
Variable config : CrawlerConfig.

Local Abbreviation crawl_page :=
  (Crawler.crawl_page fetch urljoin strftime config).
Local Abbreviation follow := (Crawler.follow urljoin config).
Local Abbreviation document_of := (Crawler.document_of strftime).

(** A call only adds to the store, whatever the store. *)
Lemma crawl_page_extends fuel url depth st st' :
  crawl_page fuel url depth st = Some st' → extends st st'.
Proof.
  revert url depth st st'.
  induction fuel as [|fuel IH]; intros url depth st st';
    rewrite crawl_page_unfold;
    (destruct (_ || _); [intros [= <-]; apply extends_refl|]);
    (case_bool_decide; [intros [= <-]; apply extends_refl|]); [done|].
  destruct (fetch url) as [e|root].
  - intros [= <-]. split; simpl; [apply union_subseteq_r|done].
  - intros Hfollow.
    eapply (follow_invariant urljoin config
              (λ s, extends
                      (State ({[url]} ∪ visited st)
                         (documents st ++ [document_of url depth root])) s))
      in Hfollow.
    + eapply extends_trans; [|done]. split; simpl.
      * apply union_subseteq_r.
      * by apply prefix_app_r.
    + intros next s s' He Hv. eapply extends_trans; [done|]. by eapply IH.
    + apply extends_refl.
Qed.

Lemma follow_cons visit sub_string href links st :
  follow visit sub_string (href :: links) st
  = if Py.startswith href sub_string || Py.startswith href "/" then
      match next_url urljoin config href with
      | None => Some st
      | Some next =>
          match visit next st with
          | None => None
          | Some st' => follow visit sub_string links st'
          end
      end
    else follow visit sub_string links st.
Proof. reflexivity. Qed.

(** The loop goes on after a link whose page cannot be fetched: the links
    that remain are followed from the state the failed call left, in which
    the URL of that page is visited and nothing else has changed. *)
Lemma follow_past_failure fuel depth sub_string href next links st e :
  Py.startswith href sub_string || Py.startswith href "/" = true →
  next_url urljoin config href = Some next →
  fetch next = Fails e →
  follow (λ n, crawl_page (S fuel) n depth) sub_string (href :: links) st
  = follow (λ n, crawl_page (S fuel) n depth) sub_string links
      (if (depth >? max_depth config)
          || (Z.of_nat (size (visited st)) >=? max_pages config)
          || bool_decide (next ∈ visited st)
       then st
       else State ({[next]} ∪ visited st) (documents st)).
Proof.
  intros Haccepted Hnext Hfetch. rewrite follow_cons, Haccepted, Hnext.
  rewrite crawl_page_unfold, Hfetch.
  by destruct (depth >? _), (_ >=? _), (bool_decide _).
Qed.

(** A call that gets past the guards and fetches its page leaves the
    document of that page in the store. *)
Lemma crawl_page_records fuel url depth st st' page :
  depth ≤ max_depth config →
  Z.of_nat (size (visited st)) < max_pages config →
  url ∉ visited st →
  fetch url = Page page →
  crawl_page (S fuel) url depth st = Some st' →
  document_of url depth page ∈ documents st'.
Proof.
  intros Hdepth Hroom Hnew Hfetch.
  rewrite (crawl_page_descends _ _ _ _ _ _ _ _ _ Hdepth Hroom Hnew Hfetch).
  intros Hfollow.
  eapply (follow_invariant urljoin config
            (λ s, document_of url depth page ∈ documents s)) in Hfollow;
    [done| |].
  - intros next s s' Hs Hv. apply crawl_page_extends in Hv as [_ Hpre].
    destruct Hpre as [more ->]. apply elem_of_app. by left.
  - simpl. apply elem_of_app. right. by apply list_elem_of_singleton.
Qed.

End FailureFacts.


(** ** The crawl on particular servers *)

Section Runs.
Import Models Crawler Example.

(** C1. The crawl does leave the domain of the seed. The seed page
    [https://docs.python.org/3/] links to
    [https://docs.python.evil.example/], which begins with the first twenty
    characters of the seed URL; [crawl_page] follows the link and records a
    document for it, though its host is not the host of the seed.
    [is_valid_url], which compares the hosts, rejects that URL, but
    [crawl_page] never asks it. *)
Theorem crawl_records_offsite_page check urljoin strftime :
  post_init config = None
  ∧ init check config = Urllib.Ok "docs.python.org"
  ∧ (∃ docs,
       crawl fetch_offsite urljoin strftime config = Some docs
       ∧ url <$> docs = [seed; offsite])
  ∧ Urllib.netloc seed = "docs.python.org"
  ∧ Urllib.netloc offsite = "docs.python.evil.example"
  ∧ is_valid_url check config offsite initial = Urllib.Ok false.
Proof.
  split; [by vm_compute|]. split; [by vm_compute|]. split; [|by vm_compute].
  eexists. split; by vm_compute.
Qed.

(** C2. The crawl does record one page twice when a link carries a
    fragment. The seed page links to [https://docs.python.org/3/#intro];
    [crawl_page] looks the URL up in [visited] as it is, fragment included,
    so it fetches the page again and records a second document: two
    documents whose URLs are equal once the fragment is removed.
    [is_valid_url], which removes the fragment before the lookup, rejects
    that URL after the seed is visited, but [crawl_page] never asks it. *)
Theorem crawl_records_fragment_twice check urljoin strftime :
  post_init config = None
  ∧ init check config = Urllib.Ok "docs.python.org"
  ∧ (∃ docs,
       crawl fetch_fragment urljoin strftime config = Some docs
       ∧ url <$> docs = [seed; fragment])
  ∧ Spec.strip_fragment fragment = Spec.strip_fragment seed
  ∧ is_valid_url check config fragment (State {[seed]} [])
    = Urllib.Ok false.
Proof.
  split; [by vm_compute|]. split; [by vm_compute|]. split; [|by vm_compute].
  eexists. split; by vm_compute.
Qed.

(** The page linked after the broken link is crawled. *)
Example broken_link_sibling :
  fmap (M:=list) url
    <$> crawl fetch_broken Urllib.urljoin_rooted clock config
  = Some [seed; "https://docs.python.org/3/ok"].
Proof. by vm_compute. Qed.

(** A link to [/docs/page2] on [https://ex.com/docs/page1] leads to
    [https://ex.com/docs/page2]. *)
Example rooted_link :
  Urllib.urljoin_rooted "https://ex.com/docs/page1" "/docs/page2"
  = Some "https://ex.com/docs/page2".
Proof. by vm_compute. Qed.

(** A page without headings is one section. *)
Example no_headings :
  TextExtractor.extract_text_content
    [Soup.Tag "body" ∅ [Soup.Text "Hello world. Line two."]] 5000
  = Py.nl +:+ Py.nl +:+ "Hello world. Line two.".
Proof. by vm_compute. Qed.

(** With [max_depth] 0 only the seed page is recorded. *)
Example depth_zero :
  fmap (M:=list) url
    <$> crawl fetch_broken Urllib.urljoin_rooted clock
          {| base_url := seed; max_depth := 0; max_pages := 200;
             timeout := 10; rate_limit_delay := Models.DEFAULT_DELAY;
             user_agent := Cli.DEFAULT_USER_AGENT |}
  = Some [seed].
Proof. by vm_compute. Qed.

Example split_on_whitespace :
  Py.split ("  ab c" +:+ Py.nl +:+ "d ") = ["ab"; "c"; "d"].
Proof. by vm_compute. Qed.

Example strip_ends : Py.strip ("  ab c " +:+ Py.nl) = "ab c".
Proof. by vm_compute. Qed.

Example chunk_at_five :
  TextExtractor.split_text_on_words "aa bb cc dddddddd e" 5
  = Py.join (Py.nl +:+ Py.nl) ["aa bb"; "cc"; "dddddddd"; "e"].
Proof. by vm_compute. Qed.

End Runs.

(** ** Instances *)

Lemma crawl_within_budgets_witness :
  ∃ docs,
    Crawler.crawl Example.fetch_broken Urllib.urljoin_rooted Example.clock
      Example.config = Some docs
    ∧ Z.of_nat (length docs) ≤ Models.max_pages Example.config
    ∧ Forall (λ d, Models.depth d ≤ Models.max_depth Example.config) docs.
Proof.
  apply (crawl_within_budgets Example.fetch_broken Urllib.urljoin_rooted
           Example.clock Example.config); simpl; lia.
Defined.

Lemma extract_code_blocks_order_witness :
  TextExtractor.add_code ["print(1)"]
    (Soup.Found ["pre"] "code" ∅ [Soup.Text "print(1)"] [])
  = ["print(1)"].
Proof.
  apply (proj1 (proj2 extract_code_blocks_order)). vm_compute. reflexivity.
Defined.

Lemma section_scan_stops_at_h1_to_h4_witness :
  TextExtractor.scan_siblings TextExtractor.SECTION_STOPS
    [Soup.Tag "h5" ∅ [Soup.Text "five"]; Soup.Text " tail "] ["para"]
  = TextExtractor.scan_siblings TextExtractor.SECTION_STOPS
      [Soup.Text " tail "]
      (["para"] ++ filter (λ t, Py.truthy t)
                     [Soup.get_text_strip "" [Soup.Text "five"]])
  ∧ TextExtractor.scan_siblings TextExtractor.SECTION_STOPS
      [Soup.Tag "h2" ∅ [Soup.Text "B"]; Soup.Text "later"] ["para"]
    = ["para"].
Proof.
  split.
  - apply (proj1 (proj2 section_scan_stops_at_h1_to_h4)). left. reflexivity.
  - apply (proj1 (proj2 (proj2 section_scan_stops_at_h1_to_h4))).
    apply list_elem_of_further, list_elem_of_here.
Defined.


Lemma crawl_terminates_witness :
  Crawler.crawl_page Example.fetch_broken Urllib.urljoin_rooted Example.clock
    Example.config 0 Example.seed 4 Crawler.initial
  = Some Crawler.initial
  ∧ is_Some
      (Crawler.crawl_page Example.fetch_broken Urllib.urljoin_rooted
         Example.clock Example.config 4 Example.seed 0 Crawler.initial).
Proof.
  split.
  - apply (proj1 (crawl_terminates Example.fetch_broken Urllib.urljoin_rooted
                    Example.clock Example.config)).
    left. simpl. lia.
  - apply (proj1 (proj2 (proj2 (crawl_terminates Example.fetch_broken
                                  Urllib.urljoin_rooted Example.clock
                                  Example.config)))).
    simpl. lia.
Defined.

Lemma to_dict_code_blocks_twice_witness :
  ∃ docs,
    Models.get "docs" Example.printed = Some (Models.VList docs)
    ∧ Forall (λ v, ∃ blocks,
                Models.get "code_blocks" v = Some blocks
                ∧ Models.get "metadata" v ≫= Models.get "code_blocks"
                  = Some blocks)
        docs.
Proof.
  apply (proj2 to_dict_code_blocks_twice Example.check Example.fetch_broken
           Urllib.urljoin_rooted Example.clock Example.args).
  vm_compute. reflexivity.
Defined.

(** * More properties *)

(** ** Stripping *)

Section StripFacts.
Import Spec Props.
Local Arguments Py.isspace : simpl never.

Lemma lstrip_len s : Py.len (Py.lstrip s) ≤ Py.len s.
Proof.
  unfold Py.len. induction s as [|c s IH]; simpl; [lia|].
  destruct (Py.isspace c); simpl; lia.
Qed.

Lemma rstrip_len s : Py.len (Py.rstrip s) ≤ Py.len s.
Proof.
  unfold Py.len. induction s as [|c s IH]; simpl; [lia|].
  destruct (_ && _); simpl; lia.
Qed.

Lemma strip_len s : Py.len (Py.strip s) ≤ Py.len s.
Proof.
  unfold Py.strip. pose proof (rstrip_len (Py.lstrip s)).
  pose proof (lstrip_len s). lia.
Qed.

Lemma lstrip_spaceless s : spaceless s = true → Py.lstrip s = s.
Proof.
  destruct s as [|c s]; [done|]. unfold spaceless. simpl.
  intros [Hc _]%andb_prop. apply negb_true_iff in Hc. by rewrite Hc.
Qed.

Lemma rstrip_spaceless s : spaceless s = true → Py.rstrip s = s.
Proof.
  unfold spaceless. induction s as [|c s IH]; [done|]. simpl.
  intros [Hc Hs]%andb_prop. apply negb_true_iff in Hc.
  by rewrite Hc, (IH Hs).
Qed.

Lemma strip_spaceless s : spaceless s = true → Py.strip s = s.
Proof.
  intros Hs. unfold Py.strip. rewrite (lstrip_spaceless _ Hs).
  by apply rstrip_spaceless.
Qed.

Lemma lstrip_idem s : Py.lstrip (Py.lstrip s) = Py.lstrip s.
Proof.
  induction s as [|c s IH]; [done|]. simpl.
  destruct (Py.isspace c) eqn:Hc; [done|]. simpl. by rewrite Hc.
Qed.

Lemma rstrip_idem s : Py.rstrip (Py.rstrip s) = Py.rstrip s.
Proof.
  induction s as [|c s IH]; [done|]. simpl.
  destruct (Py.isspace c && negb (Py.truthy (Py.rstrip s))) eqn:Hc; [done|].
  simpl. by rewrite IH, Hc.
Qed.

(** What [rstrip] leaves of a string with no whitespace in front has none in
    front. *)
Lemma lstrip_rstrip_lstrip s :
  Py.lstrip (Py.rstrip (Py.lstrip s)) = Py.rstrip (Py.lstrip s).
Proof.
  induction s as [|c s IH]; [done|]. simpl.
  destruct (Py.isspace c) eqn:Hc; [done|]. simpl. rewrite Hc. simpl.
  by rewrite Hc.
Qed.

Lemma strip_idem s : Py.strip (Py.strip s) = Py.strip s.
Proof.
  unfold Py.strip. by rewrite lstrip_rstrip_lstrip, rstrip_idem.
Qed.

(** A string that begins with a character that is not whitespace. *)
Lemma lstrip_fixed s :
  Py.truthy s = true → Py.lstrip s = s →
  ∃ c s', s = String c s' ∧ Py.isspace c = false.
Proof.
  destruct s as [|c s]; [done|]. intros _. simpl.
  destruct (Py.isspace c) eqn:Hc; [|by eauto].
  intros Heq. pose proof (lstrip_len s) as Hlen. rewrite Heq in Hlen.
  unfold Py.len in Hlen. simpl in Hlen. lia.
Qed.

Lemma trimmed_strip s :
  Py.truthy (Py.strip s) = true → trimmed (Py.strip s).
Proof. intros Ht. split; [done|apply strip_idem]. Qed.

Lemma trimmed_word w : word w = true → trimmed w.
Proof.
  intros [Ht Hw]%andb_prop. split; [done|by apply strip_spaceless].
Qed.

Lemma trimmed_lstrip s : trimmed s → Py.lstrip s = s.
Proof.
  intros [_ Hs]. rewrite <- Hs at 1. unfold Py.strip.
  by rewrite lstrip_rstrip_lstrip.
Qed.

End StripFacts.

(** ** The chunks *)

Section ChunkFacts.
Import TextExtractor Spec Props.
Local Arguments Py.isspace : simpl never.

Lemma strip_truthy s :
  Py.truthy s = true → Py.lstrip s = s → Py.truthy (Py.strip s) = true.
Proof.
  intros Ht Hl. destruct (lstrip_fixed s Ht Hl) as (c & s' & -> & Hc).
  unfold Py.strip. rewrite Hl. simpl. by rewrite Hc.
Qed.

Lemma falsy_empty s : Py.truthy s = false → s = "".
Proof. by destruct s. Qed.

(** The chunk that a flush appends. *)
Lemma flushed_chunk n all cur :
  Py.truthy cur = true → Py.lstrip cur = cur →
  Py.len cur ≤ n ∨ (word cur = true ∧ cur ∈ all) →
  trimmed (Py.strip cur) ∧ fits n all (Py.strip cur).
Proof.
  intros Ht Hl Hfit. split; [by apply trimmed_strip, strip_truthy|].
  destruct Hfit as [Hlen|[Hcw Hcin]].
  - left. pose proof (strip_len cur). lia.
  - right. apply andb_prop in Hcw as [_ Hcw].
    by rewrite (strip_spaceless _ Hcw).
Qed.

Lemma pack_step_packed n all st w :
  word w = true → w ∈ all →
  packed n all st → packed n all (pack_step n st w).
Proof.
  intros Hw Hin [Hchunks Hcur]. destruct st as [chunks cur]. simpl in *.
  pose proof (trimmed_word w Hw) as Htw.
  assert (Py.truthy w = true ∧ Py.lstrip w = w) as [Hwt Hwl].
  { split; [apply Htw|by apply trimmed_lstrip]. }
  unfold pack_step.
  destruct (_ >? _) eqn:Hover; destruct (Py.truthy cur) eqn:Ht.
  - destruct Hcur as [->|(_ & Hl & Hfit)]; [done|].
    split; simpl; [|right; by eauto 6]. apply Forall_app. split; [done|].
    apply Forall_singleton. by apply flushed_chunk.
  - split; simpl; [|left; by apply falsy_empty].
    apply Forall_app. split; [done|]. apply Forall_singleton.
    split; [done|by right].
  - destruct Hcur as [->|(_ & Hl & _)]; [done|].
    split; simpl; [done|]. right.
    destruct (lstrip_fixed cur Ht Hl) as (c & s' & -> & Hc).
    split; [done|]. split; [simpl; by rewrite Hc|]. left.
    rewrite !len_app. change (Py.len " ") with 1. lia.
  - split; simpl; [done|]. right. split; [done|]. split; [done|]. left.
    rewrite (falsy_empty _ Ht) in Hover. change (Py.len "") with 0 in Hover.
    lia.
Qed.

Lemma pack_loop_packed n all ws st :
  Forall (λ w, word w = true ∧ w ∈ all) ws →
  packed n all st → packed n all (fold_left (pack_step n) ws st).
Proof.
  intros Hws. revert st.
  induction Hws as [|w ws [Hw Hin] _ IH]; intros st Hst; simpl; [done|].
  by apply IH, pack_step_packed.
Qed.

Lemma pack_chunks n ws :
  pack n ws = Py.join (Py.nl +:+ Py.nl) (chunks_of n ws).
Proof. unfold pack, chunks_of. by destruct (fold_left _ _ _). Qed.

Lemma chunks_of_fit n ws :
  Forall (λ w, word w = true) ws →
  Forall (λ c, trimmed c ∧ fits n ws c) (chunks_of n ws).
Proof.
  intros Hws.
  assert (packed n ws (fold_left (pack_step n) ws ([], ""))) as Hp.
  { apply pack_loop_packed; [|split; [constructor|by left]].
    apply Forall_forall. intros w Hin. split; [|done].
    rewrite Forall_forall in Hws. by apply Hws. }
  unfold chunks_of. destruct (fold_left _ _ _) as [chunks cur].
  destruct Hp as [Hchunks Hcur]. simpl in *.
  destruct (Py.truthy cur) eqn:Ht; [|done].
  destruct Hcur as [->|(_ & Hl & Hfit)]; [done|].
  apply Forall_app. split; [done|]. apply Forall_singleton.
  by apply flushed_chunk.
Qed.

(** X1. A text longer than the limit becomes its chunks joined by blank
    lines, and every chunk is non-empty, has no whitespace at either end, and
    is within the limit unless it is one single word of the text. *)
Theorem chunks_fit text max_length :
  max_length < Py.len text →
  split_text_on_words text max_length
  = Py.join (Py.nl +:+ Py.nl) (chunks_of max_length (Py.split text))
  ∧ Forall (λ c, trimmed c ∧ fits max_length (Py.split text) c)
      (chunks_of max_length (Py.split text)).
Proof.
  intros Hlong. split.
  - unfold split_text_on_words.
    destruct (_ <=? _) eqn:Hle; [lia|]. apply pack_chunks.
  - apply chunks_of_fit, split_words.
Qed.

Lemma split_blank s : blank s = true → Py.split s = [].
Proof.
  unfold blank, Py.split. induction s as [|c s IH]; [done|]. simpl.
  intros [Hc Hs]%andb_prop. rewrite Hc. by apply IH.
Qed.

(** X2. A text of whitespace only that is longer than the limit becomes the
    empty string. *)
Theorem chunk_blank text max_length :
  blank text = true → max_length < Py.len text →
  split_text_on_words text max_length = "".
Proof.
  intros Hblank Hlong. unfold split_text_on_words.
  destruct (_ <=? _) eqn:Hle; [lia|]. by rewrite (split_blank _ Hblank).
Qed.

(** A join of chunks begins with the first character of the first chunk. *)
Lemma join_head sep c s l :
  ∃ rest, Py.join sep (String c s :: l) = String c rest.
Proof. destruct l; simpl; eauto. Qed.

Lemma pack_not_blank n ws :
  Forall (λ w, word w = true) ws → ¬ starts_blank (pack n ws).
Proof.
  intros Hws [rest Hrest]. rewrite pack_chunks in Hrest.
  pose proof (chunks_of_fit n ws Hws) as Hfit.
  destruct (chunks_of n ws) as [|x l]; [done|].
  apply Forall_cons_1 in Hfit as [[Htx _] _].
  destruct (lstrip_fixed x (proj1 Htx) (trimmed_lstrip x Htx))
    as (c & s' & -> & Hc).
  destruct (join_head (Py.nl +:+ Py.nl) c s' l) as [r Hr].
  rewrite Hr in Hrest. by injection Hrest as -> _.
Qed.

End ChunkFacts.

(** ** Extraction *)

Section ExtractionFacts.
Import Soup TextExtractor Spec Props.

Lemma block_text_trimmed cs : Forall trimmed (block_text cs).
Proof.
  unfold block_text. destruct (Py.truthy _) eqn:Ht; [|constructor].
  apply Forall_singleton. by apply trimmed_strip.
Qed.

Lemma pre_blocks_node_trimmed n : Forall trimmed (pre_blocks_node n).
Proof.
  induction n as [s|nm at_ cs IH] using node_forest_ind; [constructor|].
  simpl. apply Forall_app. split.
  - destruct (String.eqb nm "pre"); [apply block_text_trimmed|constructor].
  - induction IH as [|c l Hc _ IHl]; [constructor|].
    simpl. apply Forall_app. by split.
Qed.

Lemma loose_code_blocks_node_trimmed n :
  Forall trimmed (loose_code_blocks_node n).
Proof.
  induction n as [s|nm at_ cs IH] using node_forest_ind; [constructor|].
  simpl. destruct (String.eqb nm "pre"); [constructor|].
  apply Forall_app. split.
  - destruct (String.eqb nm "code"); [apply block_text_trimmed|constructor].
  - induction IH as [|c l Hc _ IHl]; [constructor|].
    simpl. apply Forall_app. by split.
Qed.

(** X3. Every code block of a page is non-empty and has no whitespace at
    either end. *)
Theorem code_blocks_trimmed root :
  Forall trimmed (extract_code_blocks root).
Proof.
  rewrite extract_code_blocks_spec. apply Forall_app. split.
  - unfold pre_blocks. induction root as [|c l IH]; [constructor|].
    simpl. apply Forall_app. split; [apply pre_blocks_node_trimmed|done].
  - unfold loose_code_blocks. induction root as [|c l IH]; [constructor|].
    simpl. apply Forall_app. split; [apply loose_code_blocks_node_trimmed|done].
Qed.

(** *** Noise *)

Lemma walk_app_cons anc n rest :
  walk anc (n :: rest) = walk_node anc n rest ++ walk anc rest.
Proof. reflexivity. Qed.

Lemma walk_decompose_node names n : ∀ anc rest,
  Forall (λ e, name e ∉ names) (walk anc rest) →
  Forall (λ e, name e ∉ names) (walk anc (decompose_node names n ++ rest)).
Proof.
  induction n as [s|nm at_ cs IH] using node_forest_ind; intros anc rest Hrest.
  - done.
  - simpl. case_bool_decide as Hnm; [done|].
    simpl. apply Forall_cons. split; [done|]. apply Forall_app. split; [|done].
    change ((fix walk_list (l : list node) : list found :=
               match l with
               | [] => []
               | c :: l' => walk_node (nm :: anc) c l' ++ walk_list l'
               end) (flat_map (decompose_node names) cs))
      with (walk (nm :: anc) (flat_map (decompose_node names) cs)).
    generalize (nm :: anc). intros anc'.
    induction IH as [|c l Hc _ IHl]; [constructor|].
    simpl. by apply Hc.
Qed.

Lemma walk_decompose_all names root anc :
  Forall (λ e, name e ∉ names) (walk anc (decompose_all names root)).
Proof.
  unfold decompose_all. induction root as [|c l IH]; [constructor|].
  simpl. by apply walk_decompose_node.
Qed.

Lemma decompose_node_idem names n :
  flat_map (decompose_node names) (decompose_node names n)
  = decompose_node names n.
Proof.
  induction n as [s|nm at_ cs IH] using node_forest_ind; [done|].
  simpl. case_bool_decide as Hnm; [done|]. simpl.
  rewrite bool_decide_eq_false_2 by done. rewrite app_nil_r.
  do 2 f_equal. induction IH as [|c l Hc _ IHl]; [done|].
  simpl. by rewrite flat_map_app, Hc, IHl.
Qed.

Lemma decompose_all_idem names root :
  decompose_all names (decompose_all names root) = decompose_all names root.
Proof.
  unfold decompose_all. induction root as [|c l IH]; [done|].
  simpl. by rewrite flat_map_app, decompose_node_idem, IH.
Qed.

Lemma filter_none {A} (p : A → bool) (l : list A) :
  Forall (λ x, p x = false) l → filter (λ x, p x) l = [].
Proof.
  induction 1 as [|x l Hx _ IH]; [done|].
  by rewrite filter_cons_False by (by apply Is_true_false).
Qed.

(** X4. After [extract_text_content] has run, the soup has no [script],
    [style], [nav], [footer] or [header] element left at any depth; cleaning
    a second time changes nothing, so the content of a page and the content
    of its cleaned soup are the same. *)
Theorem noise_removed root max_length :
  find_all NOISE (cleaned root) = []
  ∧ cleaned (cleaned root) = cleaned root
  ∧ extract_text_content (cleaned root) max_length
    = extract_text_content root max_length.
Proof.
  split; [|split].
  - unfold find_all, cleaned. apply filter_none.
    eapply Forall_impl; [apply walk_decompose_all|].
    intros e He. unfold named. by apply bool_decide_eq_false.
  - apply decompose_all_idem.
  - unfold extract_text_content, cleaned. by rewrite decompose_all_idem.
Qed.

(** *** Links *)

Lemma omap_filter {A B} (p : A → bool) (f : A → option B) (l : list A) :
  omap f (filter (λ x, p x) l)
  = flat_map (λ x, if p x then option_list (f x) else []) l.
Proof.
  induction l as [|x l IH]; [done|]. destruct (p x) eqn:Hp.
  - rewrite filter_cons_True by (by apply Is_true_true).
    simpl. rewrite Hp. destruct (f x); simpl; [f_equal|]; exact IH.
  - rewrite filter_cons_False by (by apply Is_true_false).
    simpl. rewrite Hp. exact IH.
Qed.

Lemma hrefs_entries root :
  Crawler.hrefs root = flat_map link_entry (walk [] root).
Proof. unfold Crawler.hrefs, find_all. apply omap_filter. Qed.

Lemma walk_links_node n : ∀ anc rest,
  flat_map link_entry (walk anc (decompose_node NOISE n ++ rest))
  = links_node n ++ flat_map link_entry (walk anc rest).
Proof.
  induction n as [s|nm at_ cs IH] using node_forest_ind; intros anc rest.
  - done.
  - simpl decompose_node. simpl links_node.
    case_bool_decide as Hnm; [done|].
    change ([Tag nm at_ (flat_map (decompose_node NOISE) cs)] ++ rest)
      with (Tag nm at_ (flat_map (decompose_node NOISE) cs) :: rest).
    rewrite walk_app_cons, walk_node_tag, flat_map_app.
    simpl flat_map at 1. unfold link_entry at 1. rewrite named_single.
    simpl attrs. rewrite <- !(assoc_L (++)). f_equal. f_equal.
    generalize (nm :: anc). intros anc'.
    induction IH as [|c l Hc _ IHl]; [done|].
    simpl. by rewrite Hc, IHl.
Qed.

(** X5. The links [crawl_page] finds on a page are the [href]s of the [a]
    elements that are not inside a [script], [style], [nav], [footer] or
    [header] element, in document order: the soup was cleaned before the
    links are read, so a link of a navigation bar is never followed. *)
Theorem links_skip_noise root :
  Crawler.hrefs (cleaned root) = links_outside_noise root.
Proof.
  rewrite hrefs_entries. unfold cleaned, decompose_all, links_outside_noise.
  induction root as [|c l IH]; [done|].
  simpl. by rewrite walk_links_node, IH.
Qed.

(** *** The blank line *)

Lemma starts_blank_app s t : starts_blank s → starts_blank (s +:+ t).
Proof. intros [r ->]. exists (r +:+ t). by rewrite !sapp_assoc. Qed.

Lemma add_section_blank stops sections heading :
  Forall starts_blank sections →
  Forall starts_blank (add_section stops sections heading).
Proof.
  intros Hs. unfold add_section. destruct (_ || _); [|done].
  apply Forall_app. split; [done|]. apply Forall_singleton.
  destruct (Py.truthy (Py.join _ _)).
  - eexists. by rewrite !sapp_assoc.
  - by eexists.
Qed.

Lemma fold_add_section_blank stops headings sections :
  Forall starts_blank sections →
  Forall starts_blank (fold_left (add_section stops) headings sections).
Proof.
  revert sections. induction headings as [|h l IH]; intros sections Hs; [done|].
  simpl. by apply IH, add_section_blank.
Qed.

Lemma structured_content_blank stops region :
  starts_blank (structured_content stops region).
Proof.
  unfold structured_content. destruct (find_all HEADINGS region) as [|h hs].
  - by eexists.
  - pose proof (fold_add_section_blank stops (h :: hs) [] (Forall_nil_2 _))
      as Hs.
    destruct (fold_left _ _ _) as [|s l]; [by exists ""|].
    apply Forall_cons_1 in Hs as [Hs _].
    destruct l; [done|]. by apply starts_blank_app.
Qed.

(** X6. The structured content of a page begins with a blank line, and so
    does the result of [extract_text_content] when the content is within the
    limit; when the content is longer, the chunker drops that blank line. *)
Theorem content_blank_line root max_length :
  let content :=
    structured_content SECTION_STOPS (main_content (cleaned root)) in
  starts_blank content
  ∧ (Py.len content ≤ max_length →
     starts_blank (extract_text_content root max_length))
  ∧ (max_length < Py.len content →
     ¬ starts_blank (extract_text_content root max_length)).
Proof.
  intros content. split; [apply structured_content_blank|]. split.
  - intros Hfit. unfold extract_text_content, split_text_on_words.
    fold content. destruct (_ <=? _) eqn:Hle; [|lia].
    apply structured_content_blank.
  - intros Hlong. unfold extract_text_content, split_text_on_words.
    fold content. destruct (_ <=? _) eqn:Hle; [lia|].
    apply pack_not_blank, split_words.
Qed.

End ExtractionFacts.

(** ** The URL policy *)

Section PolicyFacts.
Import Models Crawler Spec.

Lemma before_absent c s : Py.contains c s = false → Py.before c s = s.
Proof.
  induction s as [|d s IH]; [done|]. simpl.
  destruct (Ascii.eqb c d); [done|]. intros Hs. by rewrite (IH Hs).
Qed.

Lemma before_fragment c s f :
  Py.contains c s = false → Py.before c (s +:+ String c f) = s.
Proof.
  induction s as [|d s IH].
  - intros _. rewrite sapp_nil_l. simpl. by rewrite Ascii.eqb_refl.
  - simpl. destruct (Ascii.eqb c d) eqn:Hcd; [done|]. intros Hs.
    rewrite ?sapp_cons. simpl. by rewrite ?Hcd, (IH Hs).
Qed.

Lemma policy_fragment url :
  (if Py.contains "#" url then Py.before "#" url else url)
  = strip_fragment url.
Proof.
  unfold strip_fragment. destruct (Py.contains "#" url) eqn:Hc; [done|].
  by rewrite before_absent.
Qed.

(** X8. Once a URL without fragment is visited, [is_valid_url] never
    accepts it, with or without a fragment appended: the call returns
    [False] when [urlparse] returns, and raises the [ValueError] of
    [urlparse] otherwise. *)
Theorem visited_url_rejected check config url st fragment :
  url ∈ visited st → Py.contains "#" url = false →
  ∀ candidate, candidate = url ∨ candidate = url +:+ "#" +:+ fragment →
    match Urllib.urlparse check candidate with
    | Urllib.Ok _ =>
        is_valid_url check config candidate st = Urllib.Ok false
    | Urllib.ValueError message =>
        is_valid_url check config candidate st = Urllib.ValueError message
    end.
Proof.
  intros Hin Hc candidate Hcandidate.
  assert (strip_fragment candidate ∈ visited st) as Hseen.
  { unfold strip_fragment. destruct Hcandidate as [->| ->].
    - by rewrite before_absent.
    - change ("#" +:+ fragment) with (String "#" fragment).
      by rewrite before_fragment. }
  unfold is_valid_url.
  destruct (Urllib.urlparse check candidate) as [netloc|message]; [|done].
  f_equal. destruct (negb _); [done|].
  destruct (existsb _ _); [done|].
  rewrite policy_fragment. by rewrite bool_decide_eq_true_2.
Qed.

End PolicyFacts.

(** ** The configuration and the dictionary *)

Section ModelFacts.
Import Models.

Lemma fmap_VStr_inj (l l' : list string) : VStr <$> l = VStr <$> l' → l = l'.
Proof.
  revert l'. induction l as [|x l IH]; intros [|y l']; simpl; try done.
  intros [= -> Hl]. by rewrite (IH _ Hl).
Qed.

(** X10. [to_dict] loses nothing: two documents with the same dictionary are
    the same document. *)
Theorem to_dict_injective d d' : to_dict d = to_dict d' → d = d'.
Proof.
  destruct d, d'. unfold to_dict. simpl.
  intros [= -> -> -> Hblocks _ -> ->].
  by rewrite (fmap_VStr_inj _ _ Hblocks).
Qed.

End ModelFacts.

(** ** More on the crawl *)

Section CrawlMore.
Import Models Crawler Props.

Variable fetch : string → response.
Variable urljoin : string → string → option string.
Variable strftime : string → string.
Variable config : CrawlerConfig.

Local Abbreviation crawl_page :=
  (Crawler.crawl_page fetch urljoin strftime config).
Local Abbreviation follow := (Crawler.follow urljoin config).
Local Abbreviation document_of := (Crawler.document_of strftime).
Local Abbreviation crawl := (Crawler.crawl fetch urljoin strftime config).

(** A call that is not stopped by depth or budget ends with its URL
    visited. *)
Lemma crawl_page_visits fuel url depth st st' :
  crawl_page fuel url depth st = Some st' →
  url ∈ visited st'
  ∨ ((depth >? max_depth config)
     || (Z.of_nat (size (visited st)) >=? max_pages config) = true
     ∧ st' = st).
Proof.
  rewrite crawl_page_unfold.
  destruct (_ || _); [intros [= <-]; by right|].
  case_bool_decide; [intros [= <-]; by left|].
  destruct fuel as [|fuel]; [done|]. intros Hcall. left.
  assert (url ∈ {[url]} ∪ visited st) as Hin.
  { apply elem_of_union_l. by apply elem_of_singleton. }
  destruct (fetch url) as [e|root].
  - by injection Hcall as <-.
  - eapply (follow_invariant urljoin config (λ s, url ∈ visited s)) in Hcall;
      [done| |done].
    intros next s s' Hs Hv. apply crawl_page_extends in Hv as [Hsub _].
    by apply Hsub.
Qed.

(** X11. A second call of [crawl_page] for the same URL at the same depth
    changes nothing: a URL is fetched at most once, also when its fetch
    failed. *)
Theorem crawl_page_idempotent fuel fuel' url depth st st' :
  crawl_page fuel url depth st = Some st' →
  crawl_page fuel' url depth st' = Some st'.
Proof.
  intros Hcall.
  destruct (crawl_page_visits _ _ _ _ _ Hcall) as [Hin|[Hguard ->]].
  - apply crawl_page_guarded. by right; right.
  - by rewrite crawl_page_unfold, Hguard.
Qed.

(** *** Particular crawls *)

Lemma follow_identity visit sub_string links st :
  (∀ next s, visit next s = Some s) →
  follow visit sub_string links st = Some st.
Proof.
  intros Hvisit. induction links as [|href links IH]; simpl; [done|].
  destruct (_ || _); [|done]. destruct (next_url _ _ _); [|done].
  by rewrite Hvisit.
Qed.

Lemma follow_skips visit sub_string links st :
  Forall (λ href, Py.startswith href sub_string = false
                  ∧ Py.startswith href "/" = false) links →
  follow visit sub_string links st = Some st.
Proof.
  induction 1 as [|href links [Hsub Hroot] _ IH]; simpl; [done|].
  by rewrite Hsub, Hroot.
Qed.

(** X12. When the fetch of the seed page fails, the crawl returns no
    document, whatever the configuration. *)
Theorem seed_failure_empty e :
  fetch (base_url config) = Fails e → crawl = Some [].
Proof.
  intros Hfetch. unfold Crawler.crawl.
  rewrite crawl_page_unfold, Hfetch.
  destruct (_ || _) eqn:Hguard; [done|]. case_bool_decide; [done|].
  apply orb_false_elim in Hguard as [Hd _].
  unfold crawl_fuel. destruct (Z.to_nat _) eqn:Hfuel; [lia|done].
Qed.

(** X13. With [max_depth] 0 no link is followed: the crawl returns the
    document of the seed page alone, or nothing when the seed page is not
    fetched or [max_pages] is below 1. *)
Theorem depth_zero_only_seed :
  max_depth config = 0 →
  crawl = Some []
  ∨ ∃ root,
      fetch (base_url config) = Page root
      ∧ crawl = Some [document_of (base_url config) 0 root].
Proof.
  intros Hzero. unfold Crawler.crawl, crawl_fuel. rewrite Hzero.
  change (Z.to_nat (0 + 1)) with 1%nat. rewrite crawl_page_unfold.
  destruct (_ || _); [by left|]. case_bool_decide; [by left|].
  destruct (fetch (base_url config)) as [e|root]; [by left|].
  right. exists root. split; [done|].
  rewrite follow_identity; [done|].
  intros next s. apply crawl_page_guarded. left. lia.
Qed.

(** X14. A page none of whose links starts with the first twenty characters
    of its URL or with a slash adds its own document and nothing else:
    relative links such as [page2.html] are not followed. *)
Theorem relative_links_skipped fuel url depth st root :
  depth ≤ max_depth config →
  Z.of_nat (size (visited st)) < max_pages config →
  url ∉ visited st →
  fetch url = Page root →
  Forall (λ href, Py.startswith href (Py.slice_to 20 url) = false
                  ∧ Py.startswith href "/" = false)
    (hrefs (TextExtractor.cleaned root)) →
  crawl_page (S fuel) url depth st
  = Some (State ({[url]} ∪ visited st)
            (documents st ++ [document_of url depth root])).
Proof.
  intros Hdepth Hroom Hnew Hfetch Hlinks.
  rewrite (crawl_page_descends _ _ _ _ _ _ _ _ _ Hdepth Hroom Hnew Hfetch).
  by apply follow_skips.
Qed.

(** X15. No two documents of a crawl have the same URL string, whatever the
    server and the configuration. *)
Theorem crawl_no_duplicate_urls docs :
  crawl = Some docs → NoDup (url <$> docs).
Proof.
  destruct (decide (0 ≤ max_pages config)) as [Hpages|Hneg].
  - by apply crawl_urls_NoDup.
  - unfold Crawler.crawl. rewrite crawl_page_guarded.
    + intros [= <-]. constructor.
    + right; left. change (visited initial) with (∅ : gset string).
      rewrite size_empty. simpl. lia.
Qed.

(** X16. At most [max_pages] URLs are ever fetched: the visited set of the
    final state has at most [max_pages] elements, and it holds the URL of
    every document. *)
Theorem fetch_budget :
  0 ≤ max_pages config →
  ∃ st,
    crawl_page (crawl_fuel config) (base_url config) 0 initial = Some st
    ∧ Z.of_nat (size (visited st)) ≤ max_pages config
    ∧ (length (documents st) ≤ size (visited st))%nat
    ∧ Forall (λ d, url d ∈ visited st) (documents st).
Proof.
  intros Hpages.
  destruct (crawl_consistent fetch urljoin strftime config Hpages)
    as (st & Hst & Hsize & Hlen & _ & Hdocs).
  exists st. repeat split; [done..|].
  eapply Forall_impl; [done|]. by intros d [? _].
Qed.

End CrawlMore.

(** ** The order of the documents *)

Section OrderFacts.
Import Models Crawler Props.

Variable fetch : string → response.
Variable urljoin : string → string → option string.
Variable strftime : string → string.
Variable config : CrawlerConfig.

Local Abbreviation crawl_page :=
  (Crawler.crawl_page fetch urljoin strftime config).
Local Abbreviation document_of := (Crawler.document_of strftime).

Local Abbreviation follow := (Crawler.follow urljoin config).
Local Abbreviation targets := (Props.targets urljoin config).
Local Abbreviation page_targets := (Props.page_targets urljoin config).
Local Abbreviation traversal :=
  (Props.traversal fetch urljoin strftime config).

(** A walk that contributes nothing. *)
Lemma traversal_empty urls depth : traversal urls depth [].
Proof.
  induction urls as [|next urls IH]; [constructor|by constructor].
Qed.

(** The loop over the links appends a walk from the targets of the links,
    when each call appends a walk from its URL. *)
Lemma follow_traversal visit depth sub_string links :
  (∀ next st st',
     visit next st = Some st' →
     ∃ new, documents st' = documents st ++ new
            ∧ traversal [next] depth new) →
  ∀ st st',
    follow visit sub_string links st = Some st' →
    ∃ new, documents st' = documents st ++ new
           ∧ traversal (targets sub_string links) depth new.
Proof.
  intros Hvisit. induction links as [|href links IH]; intros st st'.
  - intros [= <-]. exists []. rewrite app_nil_r. split; [done|constructor].
  - simpl. destruct (_ || _).
    + destruct (next_url urljoin config href) as [next|].
      * destruct (visit next st) as [st1|] eqn:Hnext; [|done].
        intros Hrest.
        apply Hvisit in Hnext as (first & Hfirst & Hwalk).
        apply IH in Hrest as (rest & Hrest & Hrwalk).
        exists (first ++ rest). rewrite Hrest, Hfirst, <- (assoc_L (++)).
        split; [done|].
        inversion Hwalk as [|? ? ? ? Hnil|? ? ? root below tail Hf Hb Hnil];
          subst.
        -- inversion Hnil; subst. by constructor.
        -- inversion Hnil; subst. rewrite app_nil_r. simpl.
           by constructor.
      * intros [= <-]. exists []. rewrite app_nil_r. split; [done|constructor].
    + apply IH.
Qed.

(** A call appends nothing, or the document of its page followed by a walk
    from the targets of that page. *)
Lemma crawl_page_traversal fuel url depth st st' :
  crawl_page fuel url depth st = Some st' →
  documents st' = documents st
  ∨ ∃ root below,
      fetch url = Page root
      ∧ documents st'
        = documents st ++ document_of url depth root :: below
      ∧ traversal (page_targets url root) (depth + 1) below.
Proof.
  revert url depth st st'.
  induction fuel as [|fuel IH]; intros url depth st st';
    rewrite crawl_page_unfold;
    (destruct (_ || _); [intros [= <-]; by left|]);
    (case_bool_decide; [intros [= <-]; by left|]); [done|].
  destruct (fetch url) as [e|root] eqn:Hfetch.
  - intros [= <-]. by left.
  - intros Hfollow. right. exists root.
    eapply follow_traversal in Hfollow as (below & Hdocs & Hwalk).
    + exists below. split; [done|]. split; [|exact Hwalk].
      rewrite Hdocs. simpl. by rewrite <- (assoc_L (++)).
    + intros next s s' Hv. apply IH in Hv as [Hsame|Hpage].
      * exists []. rewrite app_nil_r. split; [done|apply traversal_empty].
      * destruct Hpage as (page & under & Hpage & Hs & Hunder).
        exists (document_of next (depth + 1) page :: under).
        split; [done|].
        rewrite <- (app_nil_r under). constructor; [done..|constructor].
Qed.


End OrderFacts.

(** ** The command line *)


(** ** The two crawlers *)

Section LegacyFacts.
Import Models Props.

(** What the server answers the package's crawler and the older one, and
    the clock each of them reads. *)
Variable fetch : string → Crawler.response.
Variable fetch' : string → Crawler.response.
Variable urljoin : string → string → option string.
Variable strftime : string → string.
Variable strftime' : string → string.
Variable config : CrawlerConfig.

Local Abbreviation crawl_page :=
  (Crawler.crawl_page fetch urljoin strftime config).
Local Abbreviation legacy_page :=
  (LegacyCrawler.crawl_page fetch' urljoin strftime'
     (base_url config) (max_depth config) (max_pages config)).

Lemma legacy_page_unfold fuel url depth lst :
  legacy_page fuel url depth lst =
  if (depth >? max_depth config)
     || (Z.of_nat (size (LegacyCrawler.visited lst)) >=? max_pages config)
  then Some lst
  else if bool_decide (url ∈ LegacyCrawler.visited lst) then Some lst
  else
    match fuel with
    | O => None
    | S fuel' =>
        match fetch' url with
        | Crawler.Fails _ =>
            Some (LegacyCrawler.State ({[url]} ∪ LegacyCrawler.visited lst)
                    (LegacyCrawler.documents lst))
        | Crawler.Page root =>
            LegacyCrawler.follow urljoin (base_url config)
              (λ next, legacy_page fuel' next (depth + 1))
              (Py.slice_to 20 url)
              (Crawler.hrefs (TextExtractor.cleaned root))
              (LegacyCrawler.State ({[url]} ∪ LegacyCrawler.visited lst)
                 (LegacyCrawler.documents lst
                  ++ [LegacyCrawler.document_of strftime' url depth root]))
        end
    end.
Proof. by destruct fuel. Qed.

Lemma same_visit_documents url depth root :
  same_visit (Crawler.document_of strftime url depth root)
    (LegacyCrawler.document_of strftime' url depth root).
Proof. by repeat split. Qed.

Lemma follow_agree visit visit' sub_string links st lst :
  (∀ next s ls, agree s ls →
     option_Forall2 agree (visit next s) (visit' next ls)) →
  agree st lst →
  option_Forall2 agree
    (Crawler.follow urljoin config visit sub_string links st)
    (LegacyCrawler.follow urljoin (base_url config) visit' sub_string links
       lst).
Proof.
  intros Hvisit. revert st lst.
  induction links as [|href links IH]; intros st lst Hagree; simpl.
  - by constructor.
  - destruct (_ || _); [|by apply IH].
    change (LegacyCrawler.next_url urljoin (base_url config) href)
      with (Crawler.next_url urljoin config href).
    destruct (Crawler.next_url _ _ _) as [next|]; [|by constructor].
    destruct (Hvisit next st lst Hagree) as [s ls Hs|]; [|constructor].
    by apply IH.
Qed.

(** The two crawlers keep their states in agreement, call by call, when
    the server answers both in the same way. *)
Lemma crawl_page_agree fuel url depth st lst :
  (∀ u, fetch u = fetch' u) →
  agree st lst →
  option_Forall2 agree (crawl_page fuel url depth st)
    (legacy_page fuel url depth lst).
Proof.
  intros Hserver. revert url depth st lst.
  induction fuel as [|fuel IH]; intros url depth st lst Hagree;
    rewrite crawl_page_unfold, legacy_page_unfold;
    destruct Hagree as [Hvisited Hdocs]; rewrite <- Hvisited;
    (destruct (_ || _); [by constructor|]);
    (case_bool_decide; [by constructor|]); [constructor|].
  rewrite <- Hserver. destruct (fetch url) as [e|root].
  - constructor. split; [simpl; by rewrite Hvisited|done].
  - apply follow_agree; [intros; by apply IH|].
    split; [simpl; by rewrite Hvisited|]. simpl.
    apply Forall2_app; [done|]. repeat constructor.
Qed.

(** X19. With the same base URL, [max_depth] and [max_pages], and a server
    that answers both crawlers in the same way, the older crawler records
    the same visits as the package: the same URLs in the same order, with
    the same titles and depths. The times are not compared, each crawler
    reading the clock for itself. *)
Theorem legacy_same_visits :
  (∀ u, fetch u = fetch' u) →
  ∃ docs dicts,
    Crawler.crawl fetch urljoin strftime config = Some docs
    ∧ LegacyCrawler.crawl fetch' urljoin strftime'
        (base_url config) (max_depth config) (max_pages config)
      = Some dicts
    ∧ Forall2 same_visit docs dicts.
Proof.
  intros Hserver.
  pose proof (crawl_page_agree (Crawler.crawl_fuel config) (base_url config)
                0 Crawler.initial LegacyCrawler.initial Hserver) as Hagree.
  destruct (crawl_page_total fetch urljoin strftime config
              (Crawler.crawl_fuel config) (base_url config) 0
              Crawler.initial) as [st Hst]; [unfold Crawler.crawl_fuel; lia|].
  rewrite Hst in Hagree. specialize (Hagree ltac:(by split)).
  inversion Hagree as [s ls [_ Hdocs] Hs Hls|]. subst s.
  exists (Crawler.documents st), (LegacyCrawler.documents ls).
  unfold Crawler.crawl, LegacyCrawler.crawl.
  fold (Crawler.crawl_fuel config). by rewrite Hst, <- Hls.
Qed.

End LegacyFacts.

(** The older crawl returns a result. *)
Lemma legacy_crawl_total fetch urljoin strftime base_url max_depth
    max_pages :
  ∃ dicts,
    LegacyCrawler.crawl fetch urljoin strftime base_url max_depth max_pages
    = Some dicts.
Proof.
  pose (config := {| Models.base_url := base_url;
                     Models.max_depth := max_depth;
                     Models.max_pages := max_pages;
                     Models.timeout := 10;
                     Models.rate_limit_delay := Models.DEFAULT_DELAY;
                     Models.user_agent := Cli.DEFAULT_USER_AGENT |}).
  pose proof (crawl_page_agree fetch fetch urljoin strftime strftime config
                (Crawler.crawl_fuel config) base_url 0 Crawler.initial
                LegacyCrawler.initial (λ u, eq_refl)) as Hagree.
  destruct (crawl_page_total fetch urljoin strftime config
              (Crawler.crawl_fuel config) base_url 0 Crawler.initial)
    as [st Hst]; [unfold Crawler.crawl_fuel; lia|].
  rewrite Hst in Hagree. specialize (Hagree ltac:(by split)).
  inversion Hagree as [s ls _ Hs Hls|].
  exists (LegacyCrawler.documents ls). unfold LegacyCrawler.crawl.
  change (Z.to_nat (max_depth + 1)) with (Crawler.crawl_fuel config).
  by rewrite <- Hls.
Qed.


(** ** The two extractors *)

Section LegacyExtractFacts.
Import Soup TextExtractor Spec Props.
Local Arguments Py.isspace : simpl never.

Lemma scan_siblings_grows stops sibs acc :
  acc `prefix_of` scan_siblings stops sibs acc.
Proof.
  revert acc. induction sibs as [|sib rest IH]; intros acc; simpl; [done|].
  destruct (stops_section stops sib); [done|].
  destruct (Py.truthy _); [|done].
  etrans; [|apply IH]. by apply prefix_app_r.
Qed.

Lemma stops_section_mono stops stops' sib :
  stops ⊆ stops' →
  stops_section stops sib = true → stops_section stops' sib = true.
Proof.
  intros Hsub. destruct sib as [s|nm at_ cs]; [done|]. simpl.
  intros [Ht Hin]%andb_prop. rewrite Ht. simpl.
  apply bool_decide_eq_true. apply bool_decide_eq_true in Hin. by apply Hsub.
Qed.

Lemma scan_siblings_mono stops stops' sibs acc :
  stops ⊆ stops' →
  scan_siblings stops' sibs acc `prefix_of` scan_siblings stops sibs acc.
Proof.
  intros Hsub. revert acc.
  induction sibs as [|sib rest IH]; intros acc; simpl; [done|].
  destruct (stops_section stops' sib) eqn:Hs'.
  - destruct (stops_section stops sib); [done|].
    destruct (Py.truthy _); [|apply scan_siblings_grows].
    etrans; [|apply scan_siblings_grows]. by apply prefix_app_r.
  - destruct (stops_section stops sib) eqn:Hs.
    + by rewrite (stops_section_mono _ _ _ Hsub Hs) in Hs'.
    + destruct (Py.truthy _); apply IH.
Qed.

(** X21. The older crawler, whose scan stops at every heading, collects for
    a section a prefix of what the package collects, whose scan stops at
    [h1] to [h4] only; the two agree when no [h5] or [h6] follows. *)
Theorem legacy_section_prefix sibs acc :
  scan_siblings HEADINGS sibs acc
    `prefix_of` scan_siblings SECTION_STOPS sibs acc
  ∧ (Forall (λ sib, stops_section ["h5"; "h6"] sib = false) sibs →
     scan_siblings HEADINGS sibs acc = scan_siblings SECTION_STOPS sibs acc).
Proof.
  split.
  - apply scan_siblings_mono. unfold SECTION_STOPS, HEADINGS.
    intros nm. rewrite !elem_of_cons. tauto.
  - intros Hnone. revert acc.
    induction Hnone as [|sib rest Hsib _ IH]; intros acc; simpl; [done|].
    assert (stops_section HEADINGS sib = stops_section SECTION_STOPS sib)
      as ->.
    { destruct sib as [s|nm at_ cs]; [done|]. simpl in *.
      destruct (Py.truthy nm); [|done]. simpl in *.
      apply bool_decide_eq_false in Hsib.
      destruct (bool_decide (nm ∈ SECTION_STOPS)) eqn:Hin.
      - apply bool_decide_eq_true. apply bool_decide_eq_true in Hin.
        revert Hin. unfold SECTION_STOPS, HEADINGS.
        rewrite !elem_of_cons. tauto.
      - apply bool_decide_eq_false. apply bool_decide_eq_false in Hin.
        revert Hin Hsib. unfold SECTION_STOPS, HEADINGS.
        rewrite !elem_of_cons, !elem_of_nil. tauto. }
    destruct (stops_section SECTION_STOPS sib); [done|].
    destruct (Py.truthy _); apply IH.
Qed.

(** *** The code blocks *)

Lemma blank_app a b : blank (a +:+ b) = blank a && blank b.
Proof.
  unfold blank. induction a as [|x a IH]; [done|].
  rewrite sapp_cons. simpl. by rewrite IH, andb_assoc.
Qed.

Lemma truthy_app a b : Py.truthy (a +:+ b) = Py.truthy a || Py.truthy b.
Proof. destruct a; [by rewrite sapp_nil_l|done]. Qed.

Lemma truthy_lstrip s : Py.truthy (Py.lstrip s) = negb (blank s).
Proof.
  unfold blank. induction s as [|c s IH]; [done|]. simpl.
  destruct (Py.isspace c); [done|done].
Qed.

Lemma truthy_strip s : Py.truthy (Py.strip s) = negb (blank s).
Proof.
  rewrite <- truthy_lstrip.
  destruct (Py.truthy (Py.lstrip s)) eqn:Ht.
  - apply strip_truthy in Ht; [|apply lstrip_idem].
    revert Ht. unfold Py.strip. by rewrite lstrip_idem.
  - unfold Py.strip. by rewrite (falsy_empty _ Ht).
Qed.

Lemma blank_join l : blank (Py.join "" l) = forallb blank l.
Proof.
  induction l as [|x l IH]; [done|]. destruct l as [|y l].
  - simpl. by rewrite andb_true_r.
  - change (Py.join "" (x :: y :: l)) with (x +:+ "" +:+ Py.join "" (y :: l)).
    rewrite sapp_nil_l, blank_app, IH. done.
Qed.

Lemma truthy_join l : Py.truthy (Py.join "" l) = existsb Py.truthy l.
Proof.
  induction l as [|x l IH]; [done|]. destruct l as [|y l].
  - simpl. by rewrite orb_false_r.
  - change (Py.join "" (x :: y :: l)) with (x +:+ "" +:+ Py.join "" (y :: l)).
    rewrite sapp_nil_l, truthy_app, IH. done.
Qed.

Lemma existsb_filter (l : list string) :
  existsb Py.truthy (filter (λ s, Py.truthy s) l) = existsb Py.truthy l.
Proof.
  induction l as [|x l IH]; [done|]. destruct (Py.truthy x) eqn:Hx.
  - rewrite filter_cons_True by (by apply Is_true_true). simpl.
    by rewrite Hx.
  - rewrite filter_cons_False by (by apply Is_true_false). simpl.
    by rewrite Hx.
Qed.

(** A block is kept by one extractor when it is kept by the other. *)
Lemma block_kept cs :
  Py.truthy (get_text_strip "" cs) = Py.truthy (Py.strip (get_text cs)).
Proof.
  unfold get_text_strip, stripped_strings, get_text.
  rewrite truthy_join, existsb_filter, truthy_strip, blank_join.
  induction (strings cs) as [|s l IH]; [done|].
  rewrite fmap_cons. cbn [existsb forallb].
  by rewrite truthy_strip, IH, negb_andb.
Qed.

Lemma legacy_fold_add_pre l acc :
  fold_left Legacy.add_pre l acc
  = acc ++ flat_map (λ e, let t := get_text_strip "" (contents e) in
                          if Py.truthy t then [t] else []) l.
Proof.
  revert acc. induction l as [|e l IH]; intros acc; simpl.
  - by rewrite app_nil_r.
  - rewrite IH. unfold Legacy.add_pre.
    destruct (Py.truthy _); simpl; [by rewrite <- (assoc_L (++))|done].
Qed.

Lemma legacy_fold_add_code l acc :
  fold_left Legacy.add_code l acc
  = acc ++ flat_map (λ e, if has_parent "pre" e then []
                          else let t := get_text_strip "" (contents e) in
                               if Py.truthy t then [t] else []) l.
Proof.
  revert acc. induction l as [|e l IH]; intros acc; simpl.
  - by rewrite app_nil_r.
  - rewrite IH. unfold Legacy.add_code.
    destruct (has_parent "pre" e); [done|].
    destruct (Py.truthy _); simpl; [by rewrite <- (assoc_L (++))|done].
Qed.

Lemma flat_map_length_eq {A B C} (f : A → list B) (g : A → list C) l :
  (∀ x, length (f x) = length (g x)) →
  length (flat_map f l) = length (flat_map g l).
Proof.
  intros Hfg. induction l as [|x l IH]; [done|].
  simpl. by rewrite !length_app, Hfg, IH.
Qed.

(** X22. The two extractors keep a block for the same elements: on every
    page the older one returns as many code blocks as the package's. *)
Theorem legacy_code_blocks_count root :
  length (Legacy.extract_code_blocks root)
  = length (extract_code_blocks root).
Proof.
  unfold Legacy.extract_code_blocks, extract_code_blocks.
  rewrite legacy_fold_add_code, legacy_fold_add_pre.
  rewrite fold_add_code, fold_add_pre. simpl. rewrite !length_app.
  f_equal; apply flat_map_length_eq; intros e; unfold block_text.
  - rewrite block_kept. by destruct (Py.truthy _).
  - destruct (has_parent "pre" e); [done|].
    rewrite block_kept. by destruct (Py.truthy _).
Qed.

End LegacyExtractFacts.

(** ** More instances *)

Lemma chunks_fit_witness :
  TextExtractor.split_text_on_words "aa bb cc dddddddd e" 5
  = Py.join (Py.nl +:+ Py.nl)
      (Props.chunks_of 5 (Py.split "aa bb cc dddddddd e"))
  ∧ Forall (λ c, Props.trimmed c
                 ∧ Props.fits 5 (Py.split "aa bb cc dddddddd e") c)
      (Props.chunks_of 5 (Py.split "aa bb cc dddddddd e")).
Proof. apply (chunks_fit "aa bb cc dddddddd e" 5). by vm_compute. Defined.

Lemma chunk_blank_witness : TextExtractor.split_text_on_words "   " 2 = "".
Proof. apply (chunk_blank "   " 2); by vm_compute. Defined.

Lemma content_blank_line_witness :
  Props.starts_blank
    (TextExtractor.extract_text_content Example.headings_page 5000)
  ∧ ¬ Props.starts_blank
        (TextExtractor.extract_text_content Example.headings_page 5).
Proof.
  split.
  - apply (proj1 (proj2 (content_blank_line Example.headings_page 5000))).
    by vm_compute.
  - apply (proj2 (proj2 (content_blank_line Example.headings_page 5))).
    by vm_compute.
Defined.

Lemma visited_url_rejected_witness :
  Crawler.is_valid_url Example.check Example.config Example.seed
    (Crawler.State {[Example.seed]} []) = Urllib.Ok false
  ∧ Crawler.is_valid_url Example.check Example.config
      (Example.seed +:+ "#" +:+ "intro")
      (Crawler.State {[Example.seed]} []) = Urllib.Ok false.
Proof.
  split.
  - refine (visited_url_rejected Example.check Example.config Example.seed
              (Crawler.State {[Example.seed]} []) "intro" _ _
              Example.seed (or_introl eq_refl)); by vm_compute.
  - refine (visited_url_rejected Example.check Example.config Example.seed
              (Crawler.State {[Example.seed]} []) "intro" _ _
              (Example.seed +:+ "#" +:+ "intro") (or_intror eq_refl));
      by vm_compute.
Defined.

Lemma to_dict_injective_witness : Example.document = Example.document.
Proof.
  apply (to_dict_injective Example.document Example.document). reflexivity.
Defined.

Lemma crawl_page_idempotent_witness :
  Crawler.crawl_page Example.fetch_broken Urllib.urljoin_rooted Example.clock
    Example.config 5 Cases.broken 1
    (Crawler.State ({[Cases.broken]} ∪ ∅) [])
  = Some (Crawler.State ({[Cases.broken]} ∪ ∅) []).
Proof.
  apply (crawl_page_idempotent Example.fetch_broken Urllib.urljoin_rooted
           Example.clock Example.config 1 5 Cases.broken 1
           Crawler.initial).
  by vm_compute.
Defined.

Lemma seed_failure_empty_witness :
  Crawler.crawl Cases.fetch_down Urllib.urljoin_rooted Example.clock
    Example.config = Some [].
Proof.
  apply (seed_failure_empty Cases.fetch_down Urllib.urljoin_rooted
           Example.clock Example.config Crawler.RequestException).
  reflexivity.
Defined.

Lemma depth_zero_only_seed_witness :
  Crawler.crawl Example.fetch_broken Urllib.urljoin_rooted Example.clock
    Cases.config_flat = Some []
  ∨ ∃ root,
      Example.fetch_broken (Models.base_url Cases.config_flat)
      = Crawler.Page root
      ∧ Crawler.crawl Example.fetch_broken Urllib.urljoin_rooted
          Example.clock Cases.config_flat
        = Some [Crawler.document_of Example.clock
                  (Models.base_url Cases.config_flat) 0 root].
Proof.
  apply (depth_zero_only_seed Example.fetch_broken Urllib.urljoin_rooted
           Example.clock Cases.config_flat).
  reflexivity.
Defined.

Lemma relative_links_skipped_witness :
  Crawler.crawl_page Cases.fetch_relative Urllib.urljoin_rooted Example.clock
    Example.config 1 Example.seed 0 Crawler.initial
  = Some (Crawler.State ({[Example.seed]} ∪ ∅)
            ([] ++ [Crawler.document_of Example.clock Example.seed 0
                      Cases.relative_page])).
Proof.
  apply (relative_links_skipped Cases.fetch_relative Urllib.urljoin_rooted
           Example.clock Example.config 0 Example.seed 0 Crawler.initial
           Cases.relative_page).
  - by vm_compute.
  - by vm_compute.
  - by vm_compute.
  - reflexivity.
  - repeat constructor.
Defined.

Lemma crawl_no_duplicate_urls_witness :
  NoDup (Models.url <$> Cases.documents_broken).
Proof.
  apply (crawl_no_duplicate_urls Example.fetch_broken Urllib.urljoin_rooted
           Example.clock Example.config Cases.documents_broken).
  by vm_compute.
Defined.

Lemma fetch_budget_witness :
  ∃ st,
    Crawler.crawl_page Example.fetch_broken Urllib.urljoin_rooted
      Example.clock Example.config (Crawler.crawl_fuel Example.config)
      (Models.base_url Example.config) 0 Crawler.initial = Some st
    ∧ Z.of_nat (size (Crawler.visited st)) ≤ Models.max_pages Example.config
    ∧ (length (Crawler.documents st) ≤ size (Crawler.visited st))%nat
    ∧ Forall (λ d, Models.url d ∈ Crawler.visited st) (Crawler.documents st).
Proof.
  apply (fetch_budget Example.fetch_broken Urllib.urljoin_rooted
           Example.clock Example.config).
  by vm_compute.
Defined.


Lemma legacy_same_visits_witness :
  ∃ docs dicts,
    Crawler.crawl Example.fetch_broken Urllib.urljoin_rooted Example.clock
      Example.config = Some docs
    ∧ LegacyCrawler.crawl Example.fetch_broken Urllib.urljoin_rooted
        Cases.clock_later (Models.base_url Example.config)
        (Models.max_depth Example.config) (Models.max_pages Example.config)
      = Some dicts
    ∧ Forall2 Props.same_visit docs dicts.
Proof.
  apply (legacy_same_visits Example.fetch_broken Example.fetch_broken
           Urllib.urljoin_rooted Example.clock Cases.clock_later
           Example.config).
  intros u. reflexivity.
Defined.


(** A delay that is not a number passes [__post_init__]. *)
Example post_init_nan :
  Models.post_init
    {| Models.base_url := Example.seed;
       Models.max_depth := 3;
       Models.max_pages := 100;
       Models.timeout := 10;
       Models.rate_limit_delay := SpecFloat.S754_nan;
       Models.user_agent := Cli.DEFAULT_USER_AGENT |}
  = None.
Proof. by vm_compute. Qed.

(** A base URL with an open bracket in its authority: both entry points
    exit with code 1. *)
Example main_bracket :
  Cli.main Example.check Example.fetch_broken Urllib.urljoin_rooted
    Example.clock
    {| Cli.arg_url := "http://[";
       Cli.arg_max_depth := 3;
       Cli.arg_max_pages := 100;
       Cli.arg_timeout := 10;
       Cli.arg_rate_limit := Models.DEFAULT_DELAY |}
  = Some (Cli.Exit1 "Configuration error: Invalid IPv6 URL").
Proof. by vm_compute. Qed.

Example legacy_main_bracket :
  LegacyCrawler.main Example.fetch_broken Urllib.urljoin_rooted Example.clock
    Example.check "//[" 3 100
  = Some (Cli.Exit1 "Fatal error: Invalid IPv6 URL").
Proof. by vm_compute. Qed.

(** [is_valid_url] raises for such a URL. *)
Example is_valid_url_bracket :
  Crawler.is_valid_url Example.check Example.config "http://["
    (Crawler.State {["http://["]} [])
  = Urllib.ValueError "Invalid IPv6 URL".
Proof. by vm_compute. Qed.

Lemma legacy_section_prefix_witness :
  TextExtractor.scan_siblings TextExtractor.HEADINGS
    [Soup.Text " a "; Soup.Tag "p" ∅ [Soup.Text "b"]] []
  = TextExtractor.scan_siblings TextExtractor.SECTION_STOPS
      [Soup.Text " a "; Soup.Tag "p" ∅ [Soup.Text "b"]] [].
Proof.
  apply (proj2 (legacy_section_prefix
                  [Soup.Text " a "; Soup.Tag "p" ∅ [Soup.Text "b"]] [])).
  repeat constructor.
Defined.
